(** * Pedersen VRF verifier over Bandersnatch: a shallow embedding

    The verified code is [src/verifier/pedersen.ts], the class
    [PedersenVRFVerifier] with its methods [verify], [hashToCurve],
    [getBlindingBase] and [verifyProof].

    The verifier is written against three collaborators that it imports:
    the curve library (['@pbnjam/bandersnatch']), the Elligator2 helpers
    (['../crypto/elligator2']) and the Pedersen prover's codec and challenge
    (['../prover/pedersen']).  They are interfaces here (type classes), so
    that every theorem holds for whatever implementation is linked in; two
    small instances over the additive group Z/101 are given to run the
    verifier on concrete bytes.

    JavaScript effects are explicit: a computation takes the trace of what
    has been observed so far (external calls made, console lines written)
    and gives back either a value or a thrown error, with the new trace. *)

From Stdlib Require Import ZArith List String Ascii Strings.Byte Bool Lia.
From Stdlib Require Import DecimalString DecimalNat.
Import ListNotations.

Local Open Scope Z_scope.

(** ** Bytes *)

(** A [Uint8Array] is a finite sequence of bytes. *)
Definition Uint8Array := list byte.

Definition byte_to_Z (b : byte) : Z := Z.of_N (Byte.to_N b).

Definition byte_of_Z (z : Z) : byte :=
  match Byte.of_N (Z.to_N (z mod 256)) with
  | Some b => b
  | None => x00
  end.

(** Modelled from the spec: [bytesToBigIntLittleEndian] of
    [crypto/elligator2.ts] is not among the source files; scalars are
    "canonical little-endian 32-byte encoding", so the helper reads a byte
    array as a little-endian natural number: byte [i] weighs [256^i].
    Reading bytes never throws; where the verifier calls the helper, the
    call is recorded in the trace like every other imported call. *)
Fixpoint bytesToBigIntLittleEndian (bytes : Uint8Array) : Z :=
  match bytes with
  | [] => 0
  | b :: rest => byte_to_Z b + 256 * bytesToBigIntLittleEndian rest
  end.

(** ** Thrown values, outcomes, traces *)

(** What a [throw] carries: an [Error] with its message. *)
Inductive JsError : Type :=
| Error (message : string).

Definition message_of (e : JsError) : string :=
  match e with Error m => m end.

(** The outcome of a call: a returned value or a thrown error. *)
Inductive result (A : Type) : Type :=
| Ok (a : A)
| Throw (e : JsError).

Arguments Ok {A} a.
Arguments Throw {A} e.

(** The external operations the verifier invokes. *)
Inductive Op : Type :=
| OpDeserialize
| OpElligator2HashToCurve
| OpCurvePointToNoble
| OpPointToBytes
| OpBytesToPoint
| OpBytesToBigIntLittleEndian
| OpGenerateChallenge
| OpScalarMultiply
| OpAdd
| OpEquals
| OpFromAffine.

(** A value printed in the object that accompanies a console line. *)
Inductive LogValue : Type :=
| LBool (b : bool)
| LHex (n : Z)          (* [n.toString(16)] of a bigint *)
| LString (s : string).

(** One observable step. *)
Inductive Event : Type :=
| Call (op : Op)
| console_error (msg : string) (fields : list (string * LogValue))
| console_debug (msg : string) (fields : list (string * LogValue)).

Definition Trace := list Event.

(** A computation: from the trace so far to an outcome and the trace after. *)
Definition M (A : Type) : Type := Trace -> result A * Trace.

Definition ret {A} (a : A) : M A := fun t => (Ok a, t).

Definition throw {A} (e : JsError) : M A := fun t => (Throw e, t).

Definition bind {A B} (m : M A) (k : A -> M B) : M B :=
  fun t =>
    match m t with
    | (Ok a, t') => k a t'
    | (Throw e, t') => (Throw e, t')
    end.

(** [try { body } catch (error) { handler }] *)
Definition try_catch {A} (body : M A) (handler : JsError -> M A) : M A :=
  fun t =>
    match body t with
    | (Ok a, t') => (Ok a, t')
    | (Throw e, t') => handler e t'
    end.

Definition emit (e : Event) : M unit := fun t => (Ok tt, t ++ [e]).

(** A call into a collaborator: the call is recorded, its outcome is the
    collaborator's. *)
Definition call {A} (op : Op) (r : result A) : M A :=
  fun t => (r, t ++ [Call op]).

Declare Scope js_scope.
Delimit Scope js_scope with js.
Notation "x <- m ;; k" := (bind m (fun x => k))
  (at level 61, m at next level, right associativity) : js_scope.
Notation "m ;;; k" := (bind m (fun _ => k))
  (at level 61, right associativity) : js_scope.

(** The value and the events of a computation started on the empty trace. *)
Definition outcome {A} (m : M A) : result A := fst (m []).
Definition events {A} (m : M A) : list Event := snd (m []).

(** ** Collaborators *)

(** Affine coordinates, as in [BANDERSNATCH_PARAMS.GENERATOR]. *)
Record Affine : Type := { x : Z; y : Z }.

(** ['@pbnjam/bandersnatch']: [BandersnatchCurve], [Bandersnatch] and
    [BANDERSNATCH_PARAMS].  The package is not among the source files; each
    operation may throw.

    Modelled from the spec: the constants of [BANDERSNATCH_PARAMS] are
    parameters; the blinding base is "a second, independent base point,
    distinct from the generator G, fixed by the curve parameters". *)
Class BandersnatchCurve : Type := {
  EdwardsPoint : Type;
  bytesToPoint : Uint8Array -> result EdwardsPoint;
  pointToBytes : EdwardsPoint -> result Uint8Array;
  scalarMultiply : EdwardsPoint -> Z -> result EdwardsPoint;
  add : EdwardsPoint -> EdwardsPoint -> result EdwardsPoint;
  equals : EdwardsPoint -> EdwardsPoint -> bool;
  fromAffine : Affine -> result EdwardsPoint;
  GENERATOR : Affine;
  BLINDING_BASE : Affine;
  CURVE_ORDER : Z;
  BLINDING_BASE_distinct : BLINDING_BASE <> GENERATOR
}.

(** ['../crypto/elligator2']: the hash-to-curve map and the conversion of
    its result to the curve library's point type. *)
Class Elligator2 (curve : BandersnatchCurve) : Type := {
  CurvePoint : Type;
  elligator2HashToCurve : Uint8Array -> result CurvePoint;
  curvePointToNoble : CurvePoint -> result EdwardsPoint
}.

(** [PedersenVRFProof] of ['../prover/pedersen']: five byte arrays. *)
Record PedersenVRFProof : Type := {
  Y_bar : Uint8Array;
  R : Uint8Array;
  O_k : Uint8Array;
  s : Uint8Array;
  s_b : Uint8Array
}.

(** ['../prover/pedersen']: [PedersenVRFProver.deserialize] and
    [PedersenVRFProver.generateChallenge]. *)
Class PedersenVRFProver : Type := {
  deserialize : Uint8Array -> result PedersenVRFProof;
  generateChallenge :
    Uint8Array -> Uint8Array -> Uint8Array -> Uint8Array -> Uint8Array ->
    Uint8Array -> result Z
}.

(** ** The verifier *)

Section PedersenVRFVerifier.

Context {curve : BandersnatchCurve} {elligator : Elligator2 curve}
        {prover : PedersenVRFProver}.

Local Open Scope js_scope.
Local Open Scope string_scope.

(** [proof.length] printed in base ten, as string concatenation does. *)
Definition length_to_string (n : nat) : string :=
  NilEmpty.string_of_uint (Nat.to_uint n).

Definition invalid_proof_size (n : nat) : JsError :=
  Error ("Invalid Pedersen VRF proof size, expected 160 bytes, got "
         ++ length_to_string n ++ " bytes").

(** [static hashToCurve(message)] *)
Definition hashToCurve (message : Uint8Array) : M Uint8Array :=
  point <- call OpElligator2HashToCurve (elligator2HashToCurve message) ;;
  noble <- call OpCurvePointToNoble (curvePointToNoble point) ;;
  call OpPointToBytes (pointToBytes noble).

(** [private static getBlindingBase()] *)
Definition getBlindingBase : M EdwardsPoint :=
  call OpFromAffine
       (fromAffine {| x := x BLINDING_BASE; y := y BLINDING_BASE |}).

(** [auxData || new Uint8Array(0)]: a [Uint8Array] is an object, hence
    truthy even when empty; only a missing argument takes the default. *)
Definition auxData_or_empty (auxData : option Uint8Array) : Uint8Array :=
  match auxData with
  | Some a => a
  | None => []
  end.

(** The body of the [try] block of [verifyProof]. *)
Definition verifyProof_try (I O : Uint8Array) (proof : PedersenVRFProof)
           (auxData : option Uint8Array) : M bool :=
  (* Step 1: extract proof components, convert to points and scalars *)
  IPoint <- call OpBytesToPoint (bytesToPoint I) ;;
  OPoint <- call OpBytesToPoint (bytesToPoint O) ;;
  Y_barPoint <- call OpBytesToPoint (bytesToPoint (Y_bar proof)) ;;
  RPoint <- call OpBytesToPoint (bytesToPoint (R proof)) ;;
  O_kPoint <- call OpBytesToPoint (bytesToPoint (O_k proof)) ;;
  sScalar <- call OpBytesToBigIntLittleEndian
               (Ok (bytesToBigIntLittleEndian (s proof))) ;;
  s_bScalar <- call OpBytesToBigIntLittleEndian
                 (Ok (bytesToBigIntLittleEndian (s_b proof))) ;;
  (* Step 2: generate challenge *)
  c <- call OpGenerateChallenge
         (generateChallenge (Y_bar proof) I O (R proof) (O_k proof)
                            (auxData_or_empty auxData)) ;;
  (* Step 3: output commitment, O_k + c*O = I*s *)
  cO <- call OpScalarMultiply (scalarMultiply OPoint c) ;;
  leftSide <- call OpAdd (add O_kPoint cO) ;;
  rightSide <- call OpScalarMultiply (scalarMultiply IPoint sScalar) ;;
  theta0 <- call OpEquals (Ok (equals leftSide rightSide)) ;;
  (* Step 4: key commitment, R + c*Y_bar = s*G + s_b*B *)
  cY_bar <- call OpScalarMultiply (scalarMultiply Y_barPoint c) ;;
  leftSideKey <- call OpAdd (add RPoint cY_bar) ;;
  G <- call OpFromAffine
         (fromAffine {| x := x GENERATOR; y := y GENERATOR |}) ;;
  B <- getBlindingBase ;;
  sG <- call OpScalarMultiply (scalarMultiply G sScalar) ;;
  s_bB <- call OpScalarMultiply (scalarMultiply B s_bScalar) ;;
  rightSideKey <- call OpAdd (add sG s_bB) ;;
  theta1 <- call OpEquals (Ok (equals leftSideKey rightSideKey)) ;;
  (* Step 5: final result *)
  let isValid := theta0 && theta1 in
  emit (console_debug "Pedersen VRF verification details"
          [("theta0", LBool theta0); ("theta1", LBool theta1);
           ("isValid", LBool isValid); ("challenge", LHex c)]) ;;;
  ret isValid.

(** The [catch] block of [verifyProof]. *)
Definition verifyProof_catch (error : JsError) : M bool :=
  emit (console_error
          "Pedersen VRF proof verification with provided gamma failed"
          [("error", LString (message_of error))]) ;;;
  ret false.

(** [private static verifyProof(I, O, proof, auxData?)] *)
Definition verifyProof (I O : Uint8Array) (proof : PedersenVRFProof)
           (auxData : option Uint8Array) : M bool :=
  try_catch (verifyProof_try I O proof auxData) verifyProof_catch.

(** [static verify(input, gamma, proof, auxData?)] *)
Definition verify (input gamma proof : Uint8Array)
           (auxData : option Uint8Array) : M bool :=
  if negb (Nat.eqb (List.length proof) 160) then
    throw (invalid_proof_size (List.length proof))
  else
    (* Step 1: deserialize proof components *)
    pedersenProof <- call OpDeserialize (deserialize proof) ;;
    (* Step 2: hash input to curve point *)
    I <- hashToCurve input ;;
    (* Step 3: verify proof using the provided gamma *)
    isValid <- verifyProof I gamma pedersenProof auxData ;;
    (if negb isValid
     then emit (console_error "Pedersen VRF proof verification failed" [])
     else emit (console_debug "Pedersen VRF proof verified successfully" []))
    ;;;
    ret isValid.

End PedersenVRFVerifier.

(** ** The proof codec *)

(** [bytes.slice(from, to)]; slicing a [Uint8Array] never throws. *)
Definition slice (bytes : Uint8Array) (from to : nat) : Uint8Array :=
  firstn (to - from) (skipn from bytes).

(** Modelled from the spec: [PedersenVRFProver.deserialize] of
    [prover/pedersen.ts] is not among the source files; the proof encoding
    is "five fixed 32-byte fields in the order Y_bar, R, O_k, s, s_b".
    The verifier itself takes [deserialize] as a parameter; this layout is
    what the two instances below link in. *)
Definition deserialize_layout (bytes : Uint8Array) : result PedersenVRFProof :=
  Ok {| Y_bar := slice bytes 0 32;
        R := slice bytes 32 64;
        O_k := slice bytes 64 96;
        s := slice bytes 96 128;
        s_b := slice bytes 128 160 |}.

(** Modelled from the spec: [PedersenVRFProver.serialize], the same
    layout written out, [Y_bar || R || O_k || s || s_b]. *)
Definition serialize_layout (p : PedersenVRFProof) : Uint8Array :=
  Y_bar p ++ R p ++ O_k p ++ s p ++ s_b p.

(** [n] little-endian bytes of [z]. *)
Fixpoint encode_le (n : nat) (z : Z) : Uint8Array :=
  match n with
  | O => []
  | S n' => byte_of_Z z :: encode_le n' (z / 256)
  end.

(** ** Two small instances of the collaborators

    The group is Z/101 under addition: a point is a residue, the generator
    is 1, the blinding base is 7, a scalar multiple is a product modulo 101.
    [Toy.curve] multiplies by any integer; [Toy.strict_curve] throws on a
    scalar outside [1, 101). *)
Module Toy.

Definition q : Z := 101.

Definition toy_bytesToPoint (bytes : Uint8Array) : result Z :=
  if Nat.eqb (List.length bytes) 32 then
    let v := bytesToBigIntLittleEndian bytes in
    if v <? q then Ok v else Throw (Error "point is not in the group"%string)
  else Throw (Error "invalid point length"%string).

Definition toy_scalarMultiply (P k : Z) : result Z := Ok ((k * P) mod q).

Definition strict_scalarMultiply (P k : Z) : result Z :=
  if (0 <? k) && (k <? q) then Ok ((k * P) mod q)
  else Throw (Error "invalid scalar"%string).

Definition toy_add (P Q : Z) : result Z := Ok ((P + Q) mod q).

Definition toy_fromAffine (a : Affine) : result Z := Ok (x a mod q).

Definition toy_G : Affine := {| x := 1; y := 0 |}.
Definition toy_B : Affine := {| x := 7; y := 0 |}.

Definition curve : BandersnatchCurve :=
  {| EdwardsPoint := Z;
     bytesToPoint := toy_bytesToPoint;
     pointToBytes := fun P => Ok (encode_le 32 P);
     scalarMultiply := toy_scalarMultiply;
     add := toy_add;
     equals := Z.eqb;
     fromAffine := toy_fromAffine;
     GENERATOR := toy_G;
     BLINDING_BASE := toy_B;
     CURVE_ORDER := q;
     BLINDING_BASE_distinct := ltac:(intro H; discriminate H) |}.

Definition strict_curve : BandersnatchCurve :=
  {| EdwardsPoint := Z;
     bytesToPoint := toy_bytesToPoint;
     pointToBytes := fun P => Ok (encode_le 32 P);
     scalarMultiply := strict_scalarMultiply;
     add := toy_add;
     equals := Z.eqb;
     fromAffine := toy_fromAffine;
     GENERATOR := toy_G;
     BLINDING_BASE := toy_B;
     CURVE_ORDER := q;
     BLINDING_BASE_distinct := ltac:(intro H; discriminate H) |}.

(** Hash to a non-zero residue. *)
Definition toy_hash (message : Uint8Array) : result Z :=
  Ok (1 + bytesToBigIntLittleEndian message mod (q - 1)).

Definition elligator (c : BandersnatchCurve)
           (inj : Z -> result (@EdwardsPoint c)) : Elligator2 c :=
  {| CurvePoint := Z;
     elligator2HashToCurve := toy_hash;
     curvePointToNoble := inj |}.

(** The transcript, read as one little-endian number, modulo the order. *)
Definition toy_challenge (Y_bar I O R O_k ad : Uint8Array) : result Z :=
  Ok (bytesToBigIntLittleEndian (Y_bar ++ I ++ O ++ R ++ O_k ++ ad) mod q).

Definition prover : PedersenVRFProver :=
  {| deserialize := deserialize_layout;
     generateChallenge := toy_challenge |}.

Definition elligator_toy : Elligator2 curve :=
  elligator curve (fun P => Ok P).

Definition elligator_strict : Elligator2 strict_curve :=
  elligator strict_curve (fun P => Ok P).

(** The verifier linked against each instance. *)
Definition verify_toy : Uint8Array -> Uint8Array -> Uint8Array ->
                        option Uint8Array -> M bool :=
  @verify curve elligator_toy prover.

Definition verify_strict : Uint8Array -> Uint8Array -> Uint8Array ->
                           option Uint8Array -> M bool :=
  @verify strict_curve elligator_strict prover.

(** Modelled from the spec: [PedersenVRFProver.prove] is not among the
    source files; these are its steps 1 to 7 (section 4.5) over Z/101, the
    blinding [b] and the nonces [k], [k_b] being given.  The result is the
    pair of the encoded output point and the 160-byte proof. *)
Definition prove (secretKey b k k_b : Z) (input ad : Uint8Array)
  : Uint8Array * Uint8Array :=
  let I := 1 + bytesToBigIntLittleEndian input mod (q - 1) in
  let Gamma := (secretKey * I) mod q in
  let Y_bar := (secretKey * 1 + b * 7) mod q in
  let R := (k * 1 + k_b * 7) mod q in
  let O_k := (k * I) mod q in
  let c := bytesToBigIntLittleEndian
             (encode_le 32 Y_bar ++ encode_le 32 I ++ encode_le 32 Gamma ++
              encode_le 32 R ++ encode_le 32 O_k ++ ad) mod q in
  let s := (k + c * secretKey) mod q in
  let s_b := (k_b + c * b) mod q in
  (encode_le 32 Gamma,
   serialize_layout {| Y_bar := encode_le 32 Y_bar;
                       R := encode_le 32 R;
                       O_k := encode_le 32 O_k;
                       s := encode_le 32 s;
                       s_b := encode_le 32 s_b |}).

(** The bytes of "test". *)
Definition input_test : Uint8Array := [x74; x65; x73; x74].

Definition gamma_test : Uint8Array := fst (prove 5 3 2 4 input_test []).
Definition proof_test : Uint8Array := snd (prove 5 3 2 4 input_test []).

(** The same proof with the field [s] replaced by [s + 101]. *)
Definition with_s (proof : Uint8Array) (s' : Z) : Uint8Array :=
  firstn 96 proof ++ encode_le 32 s' ++ skipn 128 proof.

Definition proof_large_s : Uint8Array := with_s proof_test (52 + q).

(** Thirty-two bytes 0xff: not the encoding of a residue below 101. *)
Definition gamma_undecodable : Uint8Array := repeat xff 32.

(** The neutral element as output point, and the all-zero proof: three
    neutral commitments and two zero responses. *)
Definition gamma_identity : Uint8Array := encode_le 32 0.
Definition proof_identity : Uint8Array := repeat x00 160.

(** A proof made with the secret key 94 and the blinding 1: the blinded
    key commitment [Y_bar = 94*1 + 1*7] is the neutral element. *)
Definition gamma_blinded_away : Uint8Array :=
  fst (prove 94 1 2 4 input_test []).
Definition proof_blinded_away : Uint8Array :=
  snd (prove 94 1 2 4 input_test []).

End Toy.


(** ** What the claims speak about *)

Section Statements.

Context {curve : BandersnatchCurve} {elligator : Elligator2 curve}
        {prover : PedersenVRFProver}.

(** The output-commitment equation, [O_k + c*Gamma == I*s], over the curve
    library's operations: each product and sum is computed, and the two
    sides are equal. *)
Definition theta0_holds (O_kPoint OPoint IPoint : EdwardsPoint)
           (c sScalar : Z) : Prop :=
  exists cO leftSide rightSide,
    scalarMultiply OPoint c = Ok cO /\
    add O_kPoint cO = Ok leftSide /\
    scalarMultiply IPoint sScalar = Ok rightSide /\
    equals leftSide rightSide = true.

(** The key-commitment equation, [R + c*Y_bar == s*G + s_b*B]. *)
Definition theta1_holds (RPoint Y_barPoint : EdwardsPoint)
           (c sScalar s_bScalar : Z) : Prop :=
  exists cY_bar leftSideKey G B sG s_bB rightSideKey,
    scalarMultiply Y_barPoint c = Ok cY_bar /\
    add RPoint cY_bar = Ok leftSideKey /\
    fromAffine GENERATOR = Ok G /\
    fromAffine BLINDING_BASE = Ok B /\
    scalarMultiply G sScalar = Ok sG /\
    scalarMultiply B s_bScalar = Ok s_bB /\
    add sG s_bB = Ok rightSideKey /\
    equals leftSideKey rightSideKey = true.

(** Everything the verifier derives from its arguments before it evaluates
    the equations. *)
Record Transcript : Type := {
  t_proof : PedersenVRFProof;
  t_I : Uint8Array;
  t_IPoint : EdwardsPoint;
  t_OPoint : EdwardsPoint;
  t_Y_barPoint : EdwardsPoint;
  t_RPoint : EdwardsPoint;
  t_O_kPoint : EdwardsPoint;
  t_c : Z
}.

Definition t_s (d : Transcript) : Z :=
  bytesToBigIntLittleEndian (s (t_proof d)).

Definition t_s_b (d : Transcript) : Z :=
  bytesToBigIntLittleEndian (s_b (t_proof d)).

(** The five points decode. *)
Definition points_decode (gamma : Uint8Array) (d : Transcript) : Prop :=
  bytesToPoint (t_I d) = Ok (t_IPoint d) /\
  bytesToPoint gamma = Ok (t_OPoint d) /\
  bytesToPoint (Y_bar (t_proof d)) = Ok (t_Y_barPoint d) /\
  bytesToPoint (R (t_proof d)) = Ok (t_RPoint d) /\
  bytesToPoint (O_k (t_proof d)) = Ok (t_O_kPoint d).

(** [d] is the transcript of [verify input gamma proof auxData]: the proof
    deserializes, [I] is the hash of the input, the five points decode, and
    [c] is the challenge over [(Y_bar, I, Gamma, R, O_k)] and the auxiliary
    data. *)
Definition transcript_of (input gamma proof : Uint8Array)
           (auxData : option Uint8Array) (d : Transcript) : Prop :=
  deserialize proof = Ok (t_proof d) /\
  outcome (hashToCurve input) = Ok (t_I d) /\
  points_decode gamma d /\
  generateChallenge (Y_bar (t_proof d)) (t_I d) gamma (R (t_proof d))
                    (O_k (t_proof d)) (auxData_or_empty auxData)
  = Ok (t_c d).

Definition theta0_of (d : Transcript) : Prop :=
  theta0_holds (t_O_kPoint d) (t_OPoint d) (t_IPoint d) (t_c d) (t_s d).

Definition theta1_of (d : Transcript) : Prop :=
  theta1_holds (t_RPoint d) (t_Y_barPoint d) (t_c d) (t_s d) (t_s_b d).

(** Both equations hold for the challenge computed over
    [(Y_bar, I, Gamma, R, O_k)], in this order, and the auxiliary bytes
    [ad]: the proof deserializes, [I] is the hash of the input, the five
    points decode, [generateChallenge] returns [c] on those six arguments,
    and theta0 and theta1 hold for that [c]. *)
Definition equations_hold_for (input gamma proof ad : Uint8Array) : Prop :=
  exists pf hashed IPoint OPoint Y_barPoint RPoint O_kPoint c,
    deserialize proof = Ok pf /\
    outcome (hashToCurve input) = Ok hashed /\
    bytesToPoint hashed = Ok IPoint /\
    bytesToPoint gamma = Ok OPoint /\
    bytesToPoint (Y_bar pf) = Ok Y_barPoint /\
    bytesToPoint (R pf) = Ok RPoint /\
    bytesToPoint (O_k pf) = Ok O_kPoint /\
    generateChallenge (Y_bar pf) hashed gamma (R pf) (O_k pf) ad = Ok c /\
    theta0_holds O_kPoint OPoint IPoint c
                 (bytesToBigIntLittleEndian (s pf)) /\
    theta1_holds RPoint Y_barPoint c
                 (bytesToBigIntLittleEndian (s pf))
                 (bytesToBigIntLittleEndian (s_b pf)).


(** What the trace of a call to [verify] starts with when it gets as far as
    having decoded its five points. *)
Definition decoding_prefix : list Event :=
  [Call OpDeserialize; Call OpElligator2HashToCurve; Call OpCurvePointToNoble;
   Call OpPointToBytes; Call OpBytesToPoint; Call OpBytesToPoint;
   Call OpBytesToPoint; Call OpBytesToPoint; Call OpBytesToPoint].

End Statements.

(** ** The console lines and the call sequence of a run *)

(** The thirteen library calls of steps 2 to 4 of [verifyProof], in the
    order in which the source makes them. *)
Definition equation_calls : list Event :=
  [Call OpGenerateChallenge;
   Call OpScalarMultiply; Call OpAdd; Call OpScalarMultiply; Call OpEquals;
   Call OpScalarMultiply; Call OpAdd; Call OpFromAffine; Call OpFromAffine;
   Call OpScalarMultiply; Call OpScalarMultiply; Call OpAdd; Call OpEquals].

(** The two calls of [bytesToBigIntLittleEndian], on [s] and on [s_b]. *)
Definition scalar_calls : list Event :=
  [Call OpBytesToBigIntLittleEndian; Call OpBytesToBigIntLittleEndian].

(** [console.debug('Pedersen VRF verification details', {...})] *)
Definition details_line (theta0 theta1 : bool) (c : Z) : Event :=
  console_debug "Pedersen VRF verification details"
    [("theta0"%string, LBool theta0); ("theta1"%string, LBool theta1);
     ("isValid"%string, LBool (theta0 && theta1));
     ("challenge"%string, LHex c)].

(** The line of the [catch] block of [verifyProof]. *)
Definition caught_line (e : JsError) : Event :=
  console_error "Pedersen VRF proof verification with provided gamma failed"
    [("error"%string, LString (message_of e))].

(** The two closing lines of [verify]. *)
Definition failed_line : Event :=
  console_error "Pedersen VRF proof verification failed" [].

Definition verified_line : Event :=
  console_debug "Pedersen VRF proof verified successfully" [].

Definition is_call (e : Event) : bool :=
  match e with
  | Call _ => true
  | _ => false
  end.

(** The verdict of each equation: both sides are computed, and [theta0]
    (respectively [theta1]) is what [equals] says of them, [true] or
    [false]. *)
Definition theta0_verdict {curve : BandersnatchCurve}
           (O_kPoint OPoint IPoint : EdwardsPoint) (c sScalar : Z)
           (theta0 : bool) : Prop :=
  exists cO leftSide rightSide,
    scalarMultiply OPoint c = Ok cO /\
    add O_kPoint cO = Ok leftSide /\
    scalarMultiply IPoint sScalar = Ok rightSide /\
    equals leftSide rightSide = theta0.

Definition theta1_verdict {curve : BandersnatchCurve}
           (RPoint Y_barPoint : EdwardsPoint) (c sScalar s_bScalar : Z)
           (theta1 : bool) : Prop :=
  exists cY_bar leftSideKey G B sG s_bB rightSideKey,
    scalarMultiply Y_barPoint c = Ok cY_bar /\
    add RPoint cY_bar = Ok leftSideKey /\
    fromAffine GENERATOR = Ok G /\
    fromAffine BLINDING_BASE = Ok B /\
    scalarMultiply G sScalar = Ok sG /\
    scalarMultiply B s_bScalar = Ok s_bB /\
    add sG s_bB = Ok rightSideKey /\
    equals leftSideKey rightSideKey = theta1.

(** The algebra a curve library is expected to have: [add] and
    [scalarMultiply] are total, computed by [padd] and [smul]; points form
    a commutative group under [padd] on which the integers act by [smul],
    scalars counting modulo the order; a point equals itself. *)
Record curve_laws {curve : BandersnatchCurve}
       (padd : EdwardsPoint -> EdwardsPoint -> EdwardsPoint)
       (smul : EdwardsPoint -> Z -> EdwardsPoint) : Prop := {
  add_total : forall P Q, add P Q = Ok (padd P Q);
  scalarMultiply_total : forall P k, scalarMultiply P k = Ok (smul P k);
  equals_refl : forall P, equals P P = true;
  padd_comm : forall P Q, padd P Q = padd Q P;
  padd_assoc : forall P Q S, padd P (padd Q S) = padd (padd P Q) S;
  smul_plus : forall P a b, smul P (a + b) = padd (smul P a) (smul P b);
  smul_smul : forall P a b, smul (smul P a) b = smul P (a * b);
  smul_padd : forall P Q k, smul (padd P Q) k = padd (smul P k) (smul Q k);
  smul_order : forall P k, smul P (k mod CURVE_ORDER) = smul P k
}.

(** ** Concrete transcripts over Z/101 *)

Module ToyRun.

(** The fields of [Toy.proof_test]. *)
Definition pf_test : PedersenVRFProof :=
  {| Y_bar := slice Toy.proof_test 0 32;
     R := slice Toy.proof_test 32 64;
     O_k := slice Toy.proof_test 64 96;
     s := slice Toy.proof_test 96 128;
     s_b := slice Toy.proof_test 128 160 |}.

Definition pf_large_s : PedersenVRFProof :=
  {| Y_bar := slice Toy.proof_large_s 0 32;
     R := slice Toy.proof_large_s 32 64;
     O_k := slice Toy.proof_large_s 64 96;
     s := slice Toy.proof_large_s 96 128;
     s_b := slice Toy.proof_large_s 128 160 |}.

(** The hash of "test" is the residue 69. *)
Definition hashed_test : Uint8Array := encode_le 32 69.

(** What [Toy.verify_toy] derives from [Toy.input_test], [Toy.gamma_test]
    and [Toy.proof_test]: made with the key 5, the blinding 3 and the
    nonces 2 and 4, the challenge being 10. *)
Definition point (residue : Z) : @EdwardsPoint Toy.curve := residue.

Definition transcript_test : @Transcript Toy.curve :=
  {| t_proof := pf_test;
     t_I := hashed_test;
     t_IPoint := point 69;
     t_OPoint := point 42;
     t_Y_barPoint := point 26;
     t_RPoint := point 30;
     t_O_kPoint := point 37;
     t_c := 10 |}.

(** A second proof with the same key, blinding and nonces, hence the same
    three commitments, for the auxiliary data [[x01]]. *)
Definition aux_other : Uint8Array := [x01].
Definition proof_other : Uint8Array :=
  snd (Toy.prove 5 3 2 4 Toy.input_test aux_other).

Definition pf_other : PedersenVRFProof :=
  {| Y_bar := slice proof_other 0 32;
     R := slice proof_other 32 64;
     O_k := slice proof_other 64 96;
     s := slice proof_other 96 128;
     s_b := slice proof_other 128 160 |}.

(** A decodable output point that is not the one of the proof. *)
Definition gamma_other : Uint8Array := encode_le 32 1.

Definition padd (P Q : Z) : Z := (P + Q) mod Toy.q.
Definition smul (P k : Z) : Z := (k * P) mod Toy.q.

End ToyRun.

(** ** Computations and their traces *)

(** A computation is framed when it never reads the trace: its outcome is
    the same from every trace, and it only appends its own events. *)
Definition framed {A} (m : M A) : Prop :=
  forall t, m t = (outcome m, t ++ events m).

Lemma framed_ret {A} (a : A) : framed (ret a).
Proof. intros t. unfold ret, outcome, events. simpl. now rewrite app_nil_r. Qed.

Lemma framed_throw {A} (e : JsError) : framed (@throw A e).
Proof.
  intros t. unfold throw, outcome, events. simpl. now rewrite app_nil_r.
Qed.

Lemma framed_emit (e : Event) : framed (emit e).
Proof. intros t. reflexivity. Qed.

Lemma framed_call {A} (op : Op) (r : result A) : framed (call op r).
Proof. intros t. reflexivity. Qed.

Lemma framed_bind {A B} (m : M A) (k : A -> M B) :
  framed m -> (forall a, framed (k a)) -> framed (bind m k).
Proof.
  intros Hm Hk t. unfold outcome, events, bind.
  rewrite (Hm t), (Hm []). simpl.
  destruct (outcome m) as [a|e]; [|reflexivity].
  rewrite (Hk a (t ++ events m)), (Hk a (events m)). simpl.
  now rewrite app_assoc.
Qed.

Lemma framed_try_catch {A} (m : M A) (h : JsError -> M A) :
  framed m -> (forall e, framed (h e)) -> framed (try_catch m h).
Proof.
  intros Hm Hh t. unfold outcome, events, try_catch.
  rewrite (Hm t), (Hm []). simpl.
  destruct (outcome m) as [a|e]; [reflexivity|].
  rewrite (Hh e (t ++ events m)), (Hh e (events m)). simpl.
  now rewrite app_assoc.
Qed.

Lemma framed_if {A} (b : bool) (m1 m2 : M A) :
  framed m1 -> framed m2 -> framed (if b then m1 else m2).
Proof. now destruct b. Qed.

Create HintDb framed.

#[local] Hint Resolve framed_ret framed_throw framed_emit framed_call
  framed_if : framed.

Ltac solve_framed :=
  intros;
  repeat first
    [ solve [auto with framed]
    | apply framed_bind; [|intros ?]
    | apply framed_try_catch; [|intros ?] ].

(** Outcome and events of a framed computation, piece by piece. *)
Lemma run_framed {A} (m : M A) t :
  framed m -> fst (m t) = outcome m /\ snd (m t) = t ++ events m.
Proof. intros Hm. now rewrite (Hm t). Qed.

Lemma outcome_bind {A B} (m : M A) (k : A -> M B) :
  framed m -> (forall a, framed (k a)) ->
  outcome (bind m k) =
  match outcome m with
  | Ok a => outcome (k a)
  | Throw e => Throw e
  end.
Proof.
  intros Hm Hk. unfold outcome at 1, bind. rewrite (Hm []). simpl.
  destruct (outcome m) as [a|e]; [|reflexivity].
  now rewrite (Hk a (events m)).
Qed.





(** Inversion of a successful bind and call. *)
Lemma bind_Ok {A B} (m : M A) (k : A -> M B) t b t' :
  bind m k t = (Ok b, t') ->
  exists a t1, m t = (Ok a, t1) /\ k a t1 = (Ok b, t').
Proof.
  unfold bind. destruct (m t) as [[a|e] t1]; intros H; [eauto|discriminate].
Qed.

Lemma call_Ok {A} (op : Op) (r : result A) t a t1 :
  call op r t = (Ok a, t1) -> r = Ok a /\ t1 = t ++ [Call op].
Proof. unfold call. intros H. now inversion H. Qed.

(** Binds with continuations that agree everywhere agree. *)
Lemma bind_ext {A B} (m : M A) (k1 k2 : A -> M B) t :
  (forall a t', k1 a t' = k2 a t') -> bind m k1 t = bind m k2 t.
Proof.
  intros H. unfold bind. destruct (m t) as [[a|e] t']; [apply H|reflexivity].
Qed.

(** One step of a bind over a call, by the outcome of the call. *)
Lemma bind_call {A B} (op : Op) (r : result A) (k : A -> M B) t :
  bind (call op r) k t =
  match r with
  | Ok a => k a (t ++ [Call op])
  | Throw e => (Throw e, t ++ [Call op])
  end.
Proof. unfold bind, call. now destruct r. Qed.

Ltac invert_run H :=
  repeat match type of H with
  | bind _ _ _ = (Ok _, _) =>
      let a := fresh "a" in let t1 := fresh "t" in let Hc := fresh "Hc" in
      apply bind_Ok in H as (a & t1 & Hc & H);
      try (apply call_Ok in Hc as [Hc ->];
           try (injection Hc as Hc; subst a))
  end.

(** ** Strings: what it takes to read a number back from a message *)

Lemma string_length_append (a b : string) :
  String.length (a ++ b) = (String.length a + String.length b)%nat.
Proof. induction a as [|c a IH]; simpl; [reflexivity|now rewrite IH]. Qed.

Lemma string_append_cancel_r (a b z : string) :
  (a ++ z)%string = (b ++ z)%string -> a = b.
Proof.
  revert b. induction a as [|c a IH]; intros [|c' b] H; simpl in H.
  - reflexivity.
  - apply (f_equal String.length) in H. simpl in H.
    rewrite string_length_append in H. lia.
  - apply (f_equal String.length) in H. simpl in H.
    rewrite string_length_append in H. lia.
  - injection H as Hc H. subst c'. f_equal. now apply IH.
Qed.

Lemma length_to_string_inj (n m : nat) :
  length_to_string n = length_to_string m -> n = m.
Proof.
  unfold length_to_string. intros H.
  apply (f_equal NilEmpty.uint_of_string) in H.
  rewrite !NilEmpty.usu in H. injection H as H.
  now apply DecimalNat.Unsigned.to_uint_inj.
Qed.

Lemma invalid_proof_size_inj (n m : nat) :
  invalid_proof_size n = invalid_proof_size m -> n = m.
Proof.
  unfold invalid_proof_size. intros H. injection H as H.
  apply string_append_cancel_r in H.
  now apply length_to_string_inj.
Qed.

(** ** Properties of the verifier *)

Section Properties.

Context {curve : BandersnatchCurve} {elligator : Elligator2 curve}
        {prover : PedersenVRFProver}.

Lemma affine_eta (a : Affine) : {| x := x a; y := y a |} = a.
Proof. now destruct a. Qed.

Lemma framed_hashToCurve message : framed (hashToCurve message).
Proof. unfold hashToCurve. solve_framed. Qed.

Lemma framed_getBlindingBase : framed getBlindingBase.
Proof. apply framed_call. Qed.

#[local] Hint Resolve framed_hashToCurve framed_getBlindingBase : framed.

Lemma framed_verifyProof_try I O proof auxData :
  framed (verifyProof_try I O proof auxData).
Proof. unfold verifyProof_try. solve_framed. Qed.

Lemma framed_verifyProof_catch e : framed (verifyProof_catch e).
Proof. unfold verifyProof_catch. solve_framed. Qed.

#[local] Hint Resolve framed_verifyProof_try framed_verifyProof_catch
  : framed.

Lemma framed_verifyProof I O proof auxData :
  framed (verifyProof I O proof auxData).
Proof. unfold verifyProof. solve_framed. Qed.

#[local] Hint Resolve framed_verifyProof : framed.

Lemma framed_verify input gamma proof auxData :
  framed (verify input gamma proof auxData).
Proof. unfold verify. apply framed_if; solve_framed. Qed.

(** A run of the [try] block that returns [true] has decoded the five
    points, computed the challenge and found both equations to hold. *)
Lemma verifyProof_try_true_inv I O proof auxData t t' :
  verifyProof_try I O proof auxData t = (Ok true, t') ->
  exists IPoint OPoint Y_barPoint RPoint O_kPoint c,
    (bytesToPoint I = Ok IPoint /\
     bytesToPoint O = Ok OPoint /\
     bytesToPoint (Y_bar proof) = Ok Y_barPoint /\
     bytesToPoint (R proof) = Ok RPoint /\
     bytesToPoint (O_k proof) = Ok O_kPoint) /\
    generateChallenge (Y_bar proof) I O (R proof) (O_k proof)
                      (auxData_or_empty auxData) = Ok c /\
    theta0_holds O_kPoint OPoint IPoint c
                 (bytesToBigIntLittleEndian (s proof)) /\
    theta1_holds RPoint Y_barPoint c
                 (bytesToBigIntLittleEndian (s proof))
                 (bytesToBigIntLittleEndian (s_b proof)).
Proof.
  unfold verifyProof_try, getBlindingBase. intros H.
  rewrite !affine_eta in H.
  invert_run H.
  unfold ret in H. inversion H as [[Hb Ht]].
  apply andb_prop in Hb as [Hb0 Hb1].
  do 6 eexists. unfold theta0_holds, theta1_holds.
  repeat first [eassumption | split | eexists].
Qed.

Ltac step_call H := rewrite bind_call, H; cbv beta iota.

(** Conversely, when all of that holds the [try] block returns [true]. *)
Lemma verifyProof_try_true_intro I O proof auxData t
      IPoint OPoint Y_barPoint RPoint O_kPoint c :
  bytesToPoint I = Ok IPoint ->
  bytesToPoint O = Ok OPoint ->
  bytesToPoint (Y_bar proof) = Ok Y_barPoint ->
  bytesToPoint (R proof) = Ok RPoint ->
  bytesToPoint (O_k proof) = Ok O_kPoint ->
  generateChallenge (Y_bar proof) I O (R proof) (O_k proof)
                    (auxData_or_empty auxData) = Ok c ->
  theta0_holds O_kPoint OPoint IPoint c
               (bytesToBigIntLittleEndian (s proof)) ->
  theta1_holds RPoint Y_barPoint c
               (bytesToBigIntLittleEndian (s proof))
               (bytesToBigIntLittleEndian (s_b proof)) ->
  exists t', verifyProof_try I O proof auxData t = (Ok true, t').
Proof.
  intros HI HO HY HR HOk Hc
         (cO & l0 & r0 & H1 & H2 & H3 & H4)
         (cY & l1 & G & B & sG & sbB & r1 &
          K1 & K2 & K3 & K4 & K5 & K6 & K7 & K8).
  unfold verifyProof_try, getBlindingBase. rewrite !affine_eta.
  step_call HI. step_call HO. step_call HY. step_call HR. step_call HOk.
  rewrite bind_call; cbv beta iota. rewrite bind_call; cbv beta iota.
  step_call Hc. step_call H1. step_call H2. step_call H3.
  rewrite bind_call, H4; cbv beta iota.
  step_call K1. step_call K2. step_call K3. step_call K4.
  step_call K5. step_call K6. step_call K7.
  rewrite bind_call, K8; cbv beta iota.
  unfold bind, emit, ret. simpl. eauto.
Qed.

(** [verifyProof] always returns: whatever the [try] block throws is
    mapped to [false] by the [catch] block. *)
Lemma verifyProof_run I O proof auxData t :
  verifyProof I O proof auxData t =
  match verifyProof_try I O proof auxData t with
  | (Ok b, t1) => (Ok b, t1)
  | (Throw e, t1) =>
      (Ok false,
       t1 ++ [console_error
                "Pedersen VRF proof verification with provided gamma failed"
                [("error"%string, LString (message_of e))]])
  end.
Proof.
  unfold verifyProof, try_catch.
  destruct (verifyProof_try I O proof auxData t) as [[b|e] t1]; reflexivity.
Qed.

Lemma verifyProof_returns I O proof auxData t :
  exists b t', verifyProof I O proof auxData t = (Ok b, t').
Proof.
  rewrite verifyProof_run.
  destruct (verifyProof_try I O proof auxData t) as [[b|e] t1]; eauto.
Qed.

Lemma verifyProof_true_iff I O proof auxData t :
  (exists t', verifyProof I O proof auxData t = (Ok true, t')) <->
  (exists t', verifyProof_try I O proof auxData t = (Ok true, t')).
Proof.
  rewrite verifyProof_run.
  destruct (verifyProof_try I O proof auxData t) as [[b|e] t1].
  - split; intros [t' H]; inversion H; subst; eauto.
  - split; intros [t' H]; discriminate H.
Qed.

(** The run of [verify] on a proof of 160 bytes, step by step. *)
Lemma verify_run input gamma proof auxData t :
  List.length proof = 160%nat ->
  verify input gamma proof auxData t =
  match deserialize proof with
  | Throw e => (Throw e, t ++ [Call OpDeserialize])
  | Ok pf =>
      match hashToCurve input (t ++ [Call OpDeserialize]) with
      | (Throw e, t1) => (Throw e, t1)
      | (Ok hashed, t1) =>
          match verifyProof hashed gamma pf auxData t1 with
          | (Throw e, t2) => (Throw e, t2)
          | (Ok true, t2) =>
              (Ok true,
               t2 ++ [console_debug
                        "Pedersen VRF proof verified successfully" []])
          | (Ok false, t2) =>
              (Ok false,
               t2 ++ [console_error
                        "Pedersen VRF proof verification failed" []])
          end
      end
  end.
Proof.
  intros L. unfold verify. rewrite L. cbn [Nat.eqb negb].
  change (Nat.eqb 160 160) with true. cbv iota.
  rewrite bind_call. destruct (deserialize proof) as [pf|e]; [|reflexivity].
  unfold bind at 1.
  destruct (hashToCurve input (t ++ [Call OpDeserialize])) as [[I|e] t1];
    [|reflexivity].
  unfold bind at 1.
  destruct (verifyProof I gamma pf auxData t1) as [[[|]|e] t2]; reflexivity.
Qed.

Lemma verify_wrong_length input gamma proof auxData t :
  List.length proof <> 160%nat ->
  verify input gamma proof auxData t =
  (Throw (invalid_proof_size (List.length proof)), t).
Proof.
  intros L. unfold verify.
  destruct (Nat.eqb_spec (List.length proof) 160) as [E|_]; [contradiction|].
  reflexivity.
Qed.

(** A call to [verify] that returns [true] has a transcript for which both
    equations hold. *)
Lemma verify_true_inv input gamma proof auxData t t' :
  verify input gamma proof auxData t = (Ok true, t') ->
  List.length proof = 160%nat /\
  exists d, transcript_of input gamma proof auxData d /\
            theta0_of d /\ theta1_of d.
Proof.
  intros H.
  destruct (Nat.eq_dec (List.length proof) 160) as [L|L];
    [|rewrite verify_wrong_length in H by assumption; discriminate H].
  split; [assumption|].
  rewrite verify_run in H by assumption.
  destruct (deserialize proof) as [pf|e] eqn:Hpf; [|discriminate H].
  destruct (run_framed (hashToCurve input) (t ++ [Call OpDeserialize])
                       (framed_hashToCurve input)) as [Ho _].
  destruct (hashToCurve input (t ++ [Call OpDeserialize]))
    as [[hashed|e] t1]; [|discriminate H].
  simpl in Ho.
  destruct (verifyProof hashed gamma pf auxData t1) as [[[|]|e] t2] eqn:Hv;
    try discriminate H.
  assert (Ht : exists t2, verifyProof_try hashed gamma pf auxData t1
                          = (Ok true, t2))
    by (apply verifyProof_true_iff; eauto).
  destruct Ht as [t3 Ht].
  apply verifyProof_try_true_inv in Ht
    as (IP & OP & YP & RP & OkP & c & Hdec & Hc & H0 & H1).
  exists {| t_proof := pf; t_I := hashed; t_IPoint := IP; t_OPoint := OP;
            t_Y_barPoint := YP; t_RPoint := RP; t_O_kPoint := OkP;
            t_c := c |}.
  unfold transcript_of, points_decode, theta0_of, theta1_of, t_s, t_s_b.
  simpl. auto.
Qed.

(** Conversely, a transcript for which both equations hold makes [verify]
    return [true]. *)
Lemma verify_true_intro input gamma proof auxData t d :
  List.length proof = 160%nat ->
  transcript_of input gamma proof auxData d ->
  theta0_of d -> theta1_of d ->
  exists t', verify input gamma proof auxData t = (Ok true, t').
Proof.
  intros L (Hpf & Hh & (HI & HO & HY & HR & HOk) & Hc) H0 H1.
  rewrite verify_run by assumption. rewrite Hpf.
  rewrite (framed_hashToCurve input (t ++ [Call OpDeserialize])), Hh.
  set (t1 := (t ++ [Call OpDeserialize]) ++ events (hashToCurve input)).
  destruct (verifyProof_try_true_intro (t_I d) gamma (t_proof d) auxData t1
              _ _ _ _ _ _ HI HO HY HR HOk Hc H0 H1) as [t2 Ht].
  assert (Hv : exists t2, verifyProof (t_I d) gamma (t_proof d) auxData t1
                          = (Ok true, t2))
    by (apply verifyProof_true_iff; eauto).
  destruct Hv as [t3 Hv]. rewrite Hv. eauto.
Qed.

(** The three shapes of what a call gives back. *)
Lemma result_cases (o : result bool) :
  o = Ok true \/ o = Ok false \/ exists e, o = Throw e.
Proof. destruct o as [[|]|e]; eauto. Qed.

(** *** The two equations *)

(** C1.  [verify] accepts only if the output-commitment equation holds:
    whenever it returns [true], the proof deserializes, [I] is the hash of
    the input, the points decode, [c] is the recomputed challenge, and
    [O_k + c*Gamma] equals [s*I], with [s] the little-endian value of the
    proof's field [s]. *)
Theorem verify_accepts_only_if_theta0 input gamma proof auxData t t' :
  verify input gamma proof auxData t = (Ok true, t') ->
  exists d,
    transcript_of input gamma proof auxData d /\
    theta0_holds (t_O_kPoint d) (t_OPoint d) (t_IPoint d) (t_c d)
                 (bytesToBigIntLittleEndian (s (t_proof d))).
Proof.
  intros H. apply verify_true_inv in H as (_ & d & Hd & H0 & _).
  exists d. split; assumption.
Qed.

(** C2.  [verify] accepts only if the key-commitment equation holds:
    whenever it returns [true], [R + c*Y_bar] equals [s*G + s_b*B], where
    [G] is built from the generator constant, [B] from the blinding-base
    constant, a constant distinct from the generator, and [s], [s_b] are
    the little-endian values of the proof's two scalar fields. *)
Theorem verify_accepts_only_if_theta1 input gamma proof auxData t t' :
  verify input gamma proof auxData t = (Ok true, t') ->
  exists d,
    transcript_of input gamma proof auxData d /\
    theta1_holds (t_RPoint d) (t_Y_barPoint d) (t_c d)
                 (bytesToBigIntLittleEndian (s (t_proof d)))
                 (bytesToBigIntLittleEndian (s_b (t_proof d))) /\
    BLINDING_BASE <> GENERATOR.
Proof.
  intros H. apply verify_true_inv in H as (_ & d & Hd & _ & H1).
  exists d. split; [assumption|]. split; [assumption|].
  apply BLINDING_BASE_distinct.
Qed.

(** The two directions for a given challenge input: [ad] is what the
    call passes to [generateChallenge] as auxiliary data. *)
Lemma verify_true_iff_equations input gamma proof auxData ad t :
  auxData_or_empty auxData = ad ->
  (exists t', verify input gamma proof auxData t = (Ok true, t')) <->
  (List.length proof = 160%nat /\ equations_hold_for input gamma proof ad).
Proof.
  intros Had. split.
  - intros [t' H].
    apply verify_true_inv in H
      as (L & d & (Hpf & Hh & (HI & HO & HY & HR & HOk) & Hc) & H0 & H1).
    split; [assumption|]. rewrite Had in Hc.
    exists (t_proof d), (t_I d), (t_IPoint d), (t_OPoint d),
           (t_Y_barPoint d), (t_RPoint d), (t_O_kPoint d), (t_c d).
    repeat split; assumption.
  - intros (L & pf & hashed & IP & OP & YP & RP & OkP & c & Hpf & Hh & HI &
            HO & HY & HR & HOk & Hc & H0 & H1).
    rewrite <- Had in Hc.
    apply (verify_true_intro input gamma proof auxData t
             {| t_proof := pf; t_I := hashed; t_IPoint := IP;
                t_OPoint := OP; t_Y_barPoint := YP; t_RPoint := RP;
                t_O_kPoint := OkP; t_c := c |});
      unfold transcript_of, points_decode, theta0_of, theta1_of, t_s, t_s_b;
      simpl; auto 10.
Qed.

(** C3.  The challenge is [generateChallenge] over
    [(Y_bar, I, Gamma, R, O_k)], in this order, together with the
    auxiliary data the caller passed: for every [ad], [verify] called with
    [ad] returns [true] if and only if the proof has 160 bytes and both
    equations hold for the challenge computed with that very [ad]; called
    without auxiliary data, if and only if they hold for the challenge
    computed with the empty byte array. *)
Theorem verify_true_iff_theta0_and_theta1 input gamma proof t :
  (forall ad,
     (exists t', verify input gamma proof (Some ad) t = (Ok true, t')) <->
     (List.length proof = 160%nat /\
      equations_hold_for input gamma proof ad)) /\
  ((exists t', verify input gamma proof None t = (Ok true, t')) <->
   (List.length proof = 160%nat /\
    equations_hold_for input gamma proof [])).
Proof.
  split.
  - intros ad. now apply verify_true_iff_equations.
  - now apply verify_true_iff_equations.
Qed.

(** *** Errors *)

(** C4.  A proof whose length is not 160 makes [verify] throw the size
    error, and nothing has happened by then: the trace is unchanged, so no
    deserialization, hashing or curve operation was performed.  A proof of
    160 bytes passes the check: the run goes on to deserialize it. *)
Theorem verify_length_check input gamma proof auxData t :
  (List.length proof <> 160%nat ->
   verify input gamma proof auxData t
   = (Throw (invalid_proof_size (List.length proof)), t)) /\
  (List.length proof = 160%nat ->
   exists r evs,
     verify input gamma proof auxData t
     = (r, t ++ Call OpDeserialize :: evs)).
Proof.
  split; intros L.
  - now apply verify_wrong_length.
  - rewrite (framed_verify input gamma proof auxData t).
    exists (outcome (verify input gamma proof auxData)).
    unfold events. rewrite verify_run by assumption.
    destruct (deserialize proof) as [pf|e]; [|simpl; eauto].
    destruct (run_framed (hashToCurve input) ([] ++ [Call OpDeserialize])
                         (framed_hashToCurve input)) as [_ Hh].
    destruct (hashToCurve input ([] ++ [Call OpDeserialize]))
      as [[hashed|e] t1]; simpl in Hh; subst t1; [|simpl; eauto].
    destruct (run_framed (verifyProof hashed gamma pf auxData)
                (Call OpDeserialize :: events (hashToCurve input))
                (framed_verifyProof hashed gamma pf auxData)) as [_ Hv].
    destruct (verifyProof hashed gamma pf auxData
                (Call OpDeserialize :: events (hashToCurve input)))
      as [[[|]|e] t2]; simpl in Hv; subst t2; simpl; eauto.
Qed.

(** C5, as the code has it.  When the proof has 160 bytes and
    deserializes and the input hashes to a point, a point that does not
    decode (the hashed input, gamma, or one of [Y_bar], [R], [O_k]) makes
    [verify] return [false]: the exception is caught inside [verifyProof],
    it does not reach the caller. *)
Theorem verify_undecodable_point_returns_false
        input gamma proof auxData t pf hashed :
  List.length proof = 160%nat ->
  deserialize proof = Ok pf ->
  outcome (hashToCurve input) = Ok hashed ->
  (exists e,
     bytesToPoint hashed = Throw e \/ bytesToPoint gamma = Throw e \/
     bytesToPoint (Y_bar pf) = Throw e \/ bytesToPoint (R pf) = Throw e \/
     bytesToPoint (O_k pf) = Throw e) ->
  exists t', verify input gamma proof auxData t = (Ok false, t').
Proof.
  intros L Hpf Hh [e He].
  destruct (verify input gamma proof auxData t) as [r t'] eqn:E.
  destruct (result_cases r) as [-> | [-> | [e' ->]]].
  - exfalso. apply verify_true_inv in E
      as (_ & d & (Hpf' & Hh' & (HI & HO & HY & HR & HOk) & _) & _).
    rewrite Hpf in Hpf'. inversion Hpf'; subst pf.
    rewrite Hh in Hh'. inversion Hh'; subst hashed.
    destruct He as [He | [He | [He | [He | He]]]]; congruence.
  - eauto.
  - exfalso. rewrite verify_run in E by assumption. rewrite Hpf in E.
    rewrite (framed_hashToCurve input (t ++ [Call OpDeserialize])), Hh in E.
    match type of E with
    | context [verifyProof ?a ?b ?c ?d ?u] =>
        destruct (verifyProof_returns a b c d u) as (b0 & t2 & Hv)
    end.
    rewrite Hv in E. destruct b0; discriminate E.
Qed.

(** X11.  The verifier has no range check of its own on [s] and [s_b],
    and hands them to [scalarMultiply] as decoded: when the curve
    library's [scalarMultiply] throws on every scalar at or above the curve
    order, a proof with such a scalar field is never accepted. *)
Theorem verify_rejects_large_scalar_if_scalarMultiply_does
        input gamma proof auxData t pf :
  (forall P k, CURVE_ORDER <= k -> exists e, scalarMultiply P k = Throw e) ->
  deserialize proof = Ok pf ->
  CURVE_ORDER <= bytesToBigIntLittleEndian (s pf) \/
  CURVE_ORDER <= bytesToBigIntLittleEndian (s_b pf) ->
  fst (verify input gamma proof auxData t) = Ok false \/
  exists e, fst (verify input gamma proof auxData t) = Throw e.
Proof.
  intros Hstrict Hpf Hlarge.
  destruct (verify input gamma proof auxData t) as [r t'] eqn:E. simpl.
  destruct (result_cases r) as [-> | [-> | [e' ->]]]; eauto.
  exfalso. apply verify_true_inv in E
    as (_ & d & (Hpf' & _) & H0 & H1).
  rewrite Hpf in Hpf'. inversion Hpf' as [Hd].
  destruct Hlarge as [Hs | Hs].
  - destruct H0 as (cO & l & r & _ & _ & Hm & _).
    destruct (Hstrict (t_IPoint d) _ Hs) as [e He].
    unfold t_s in Hm. rewrite <- Hd in Hm. congruence.
  - destruct H1 as (cY & l & G & B & sG & sbB & r & _ & _ & _ & _ & _ & Hm & _).
    destruct (Hstrict B _ Hs) as [e He].
    unfold t_s_b in Hm. rewrite <- Hd in Hm. congruence.
Qed.

(** *** Points are decoded before they are used *)

Lemma events_hashToCurve_Ok message hashed :
  outcome (hashToCurve message) = Ok hashed ->
  events (hashToCurve message)
  = [Call OpElligator2HashToCurve; Call OpCurvePointToNoble;
     Call OpPointToBytes].
Proof.
  unfold outcome, events, hashToCurve. rewrite bind_call.
  destruct (elligator2HashToCurve message) as [point|e]; [|discriminate].
  rewrite bind_call.
  destruct (curvePointToNoble point) as [noble|e]; [|discriminate].
  reflexivity.
Qed.






(** *** Defaults, totality *)

(** C9.  Leaving [auxData] out is passing the empty byte array. *)
Theorem verify_auxData_default input gamma proof t :
  verify input gamma proof None t = verify input gamma proof (Some []) t.
Proof.
  unfold verify, verifyProof, verifyProof_try.
  change (auxData_or_empty None) with (auxData_or_empty (Some [])).
  reflexivity.
Qed.

(** C10.  [verifyProof] always returns a boolean: what its [try] block
    returns, and [false] (after a console line) when the block throws. *)
Theorem verifyProof_total I O proof auxData t :
  (exists b t', verifyProof I O proof auxData t = (Ok b, t')) /\
  verifyProof I O proof auxData t =
  match verifyProof_try I O proof auxData t with
  | (Ok b, t1) => (Ok b, t1)
  | (Throw e, t1) =>
      (Ok false,
       t1 ++ [console_error
                "Pedersen VRF proof verification with provided gamma failed"
                [("error"%string, LString (message_of e))]])
  end.
Proof.
  split.
  - apply verifyProof_returns.
  - apply verifyProof_run.
Qed.

(** *** Beyond the two equations: errors, console, trace *)

(** What the [try] block has done when it returns, whatever it returns:
    it has decoded the five points and the two scalars, computed the
    challenge and both sides of both equations, and logged the two
    verdicts. *)
Lemma verifyProof_try_Ok_inv I O proof auxData t b t' :
  verifyProof_try I O proof auxData t = (Ok b, t') ->
  exists IPoint OPoint Y_barPoint RPoint O_kPoint c theta0 theta1,
    (bytesToPoint I = Ok IPoint /\
     bytesToPoint O = Ok OPoint /\
     bytesToPoint (Y_bar proof) = Ok Y_barPoint /\
     bytesToPoint (R proof) = Ok RPoint /\
     bytesToPoint (O_k proof) = Ok O_kPoint) /\
    generateChallenge (Y_bar proof) I O (R proof) (O_k proof)
                      (auxData_or_empty auxData) = Ok c /\
    theta0_verdict O_kPoint OPoint IPoint c
                   (bytesToBigIntLittleEndian (s proof)) theta0 /\
    theta1_verdict RPoint Y_barPoint c
                   (bytesToBigIntLittleEndian (s proof))
                   (bytesToBigIntLittleEndian (s_b proof)) theta1 /\
    b = theta0 && theta1 /\
    t' = t ++ repeat (Call OpBytesToPoint) 5 ++ scalar_calls
           ++ equation_calls ++ [details_line theta0 theta1 c].
Proof.
  unfold verifyProof_try, getBlindingBase. intros H.
  rewrite !affine_eta in H.
  invert_run H.
  unfold ret in H. inversion H; subst.
  match goal with
  | He : emit _ _ = (Ok _, _) |- _ => unfold emit in He; inversion He
  end.
  do 8 eexists. unfold theta0_verdict, theta1_verdict.
  repeat first [eassumption | reflexivity | split | eexists].
  unfold details_line, equation_calls, scalar_calls. simpl.
  repeat rewrite <- app_assoc. reflexivity.
Qed.

(** X1.  The errors that reach the caller of [verify] are the size error,
    what [deserialize] throws and what hashing the input throws, each as it
    was thrown; nothing else is ever thrown. *)
Theorem verify_throws_iff input gamma proof auxData t e :
  fst (verify input gamma proof auxData t) = Throw e <->
  (List.length proof <> 160%nat /\
   e = invalid_proof_size (List.length proof)) \/
  (List.length proof = 160%nat /\ deserialize proof = Throw e) \/
  (List.length proof = 160%nat /\
   (exists pf, deserialize proof = Ok pf) /\
   outcome (hashToCurve input) = Throw e).
Proof.
  destruct (Nat.eq_dec (List.length proof) 160) as [L|L].
  - rewrite verify_run by assumption.
    destruct (deserialize proof) as [pf|e0] eqn:Hpf.
    + rewrite (framed_hashToCurve input (t ++ [Call OpDeserialize])).
      destruct (outcome (hashToCurve input)) as [hashed|e1] eqn:Hh.
      * match goal with
        | |- context [verifyProof ?a ?b ?c ?d ?u] =>
            destruct (verifyProof_returns a b c d u) as (b0 & t2 & Hv)
        end.
        rewrite Hv. split.
        -- destruct b0; discriminate.
        -- intros [[Hl _] | [[_ H] | [_ [_ H]]]];
             [contradiction | discriminate H | discriminate H].
      * simpl. split.
        -- intros H. inversion H. right. right. eauto.
        -- intros [[Hl _] | [[_ H] | [_ [_ H]]]];
             [contradiction | discriminate H | now inversion H].
    + simpl. split.
      * intros H. inversion H. right. left. auto.
      * intros [[Hl _] | [[_ H] | [_ [[pf H] _]]]];
          [contradiction | now inversion H | discriminate H].
  - rewrite verify_wrong_length by assumption. simpl. split.
    + intros H. inversion H. left. auto.
    + intros [[_ ->] | [[Hl _] | [Hl _]]];
        [reflexivity | contradiction | contradiction].
Qed.

(** X2.  The [try] block does not stop at the first equation that fails.
    Whenever it returns, with [true] or with [false], it has decoded the
    five points and the two scalars and computed the challenge; [theta0]
    is what [equals] says of [O_k + c*O] and [I*s], [theta1] what it says
    of [R + c*Y_bar] and [s*G + s_b*B], both having been computed; the
    block has made the same calls in the same order, logged both verdicts
    and the challenge, and returned [theta0 && theta1]. *)
Theorem verifyProof_try_fixed_calls I O proof auxData t b t' :
  verifyProof_try I O proof auxData t = (Ok b, t') ->
  exists IPoint OPoint Y_barPoint RPoint O_kPoint c theta0 theta1,
    (bytesToPoint I = Ok IPoint /\
     bytesToPoint O = Ok OPoint /\
     bytesToPoint (Y_bar proof) = Ok Y_barPoint /\
     bytesToPoint (R proof) = Ok RPoint /\
     bytesToPoint (O_k proof) = Ok O_kPoint) /\
    generateChallenge (Y_bar proof) I O (R proof) (O_k proof)
                      (auxData_or_empty auxData) = Ok c /\
    theta0_verdict O_kPoint OPoint IPoint c
                   (bytesToBigIntLittleEndian (s proof)) theta0 /\
    theta1_verdict RPoint Y_barPoint c
                   (bytesToBigIntLittleEndian (s proof))
                   (bytesToBigIntLittleEndian (s_b proof)) theta1 /\
    b = theta0 && theta1 /\
    t' = t ++ repeat (Call OpBytesToPoint) 5 ++ scalar_calls
           ++ equation_calls ++ [details_line theta0 theta1 c].
Proof. apply verifyProof_try_Ok_inv. Qed.

(** X3.  The trace of an accepting call: the decoding prefix, the two
    scalar decodings, the calls of the challenge and of the two equations,
    then exactly two console lines, both at debug level:
    the details with both verdicts [true] and the challenge, and the
    success line.  Nothing is written at error level. *)
Theorem verify_true_trace input gamma proof auxData t t' :
  verify input gamma proof auxData t = (Ok true, t') ->
  exists d,
    transcript_of input gamma proof auxData d /\
    t' = t ++ decoding_prefix ++ scalar_calls ++ equation_calls
           ++ [details_line true true (t_c d); verified_line].
Proof.
  intros H.
  destruct (verify_true_inv _ _ _ _ _ _ H)
    as (L & d & Hd & _ & _).
  exists d. split; [assumption|].
  destruct Hd as (Hpf & Hh & _ & Hc).
  rewrite verify_run in H by assumption. rewrite Hpf in H.
  rewrite (framed_hashToCurve input (t ++ [Call OpDeserialize])) in H.
  rewrite Hh, (events_hashToCurve_Ok _ _ Hh) in H.
  rewrite verifyProof_run in H.
  match type of H with
  | context [verifyProof_try ?a ?b ?c ?dd ?u] =>
      destruct (verifyProof_try a b c dd u) as [[b0|e] t2] eqn:Ht
  end.
  - apply verifyProof_try_Ok_inv in Ht
      as (IP & OP & YP & RP & OkP & c & th0 & th1 & _ & Hc' & V0 & V1 &
          Hb & Ht2).
    destruct V0 as (cO & l0 & r0 & _ & _ & _ & V0).
    destruct V1 as (cY & l1 & G & B & sG & sbB & r1 &
                    _ & _ & _ & _ & _ & _ & _ & V1).
    clear V0 V1.
    rewrite Hc in Hc'. inversion Hc'; subst c.
    destruct b0; [|discriminate H].
    inversion H as [Ht']. subst t2.
    symmetry in Hb. apply andb_prop in Hb as [-> ->].
    unfold decoding_prefix, verified_line. simpl.
    repeat rewrite <- app_assoc. reflexivity.
  - discriminate H.
Qed.

Ltac walk_calls H :=
  repeat (rewrite bind_call in H |- *; cbv beta iota in H |- *;
          try match goal with
              | |- context [match ?r with Ok _ => _ | Throw _ => _ end] =>
                  destruct r; cbv beta iota in H |- *;
                  [|simpl; reflexivity]
              end).

(** A [try] block that throws has written nothing to the console. *)
Lemma verifyProof_try_throw_calls I O proof auxData e :
  outcome (verifyProof_try I O proof auxData) = Throw e ->
  forallb is_call (events (verifyProof_try I O proof auxData)) = true.
Proof.
  unfold outcome, events, verifyProof_try, getBlindingBase. intros H.
  walk_calls H.
  simpl in H. discriminate H.
Qed.

(** X4.  An exception thrown inside [verifyProof] is visible on the
    console only: [verify] returns [false], and the last two lines it
    writes, the only two, are the error's message and the failure line. *)
Theorem verify_logs_caught_error input gamma proof auxData t pf hashed e :
  List.length proof = 160%nat ->
  deserialize proof = Ok pf ->
  outcome (hashToCurve input) = Ok hashed ->
  outcome (verifyProof_try hashed gamma pf auxData) = Throw e ->
  exists calls,
    forallb is_call calls = true /\
    verify input gamma proof auxData t
    = (Ok false, t ++ calls ++ [caught_line e; failed_line]).
Proof.
  intros L Hpf Hh He.
  exists ([Call OpDeserialize] ++ events (hashToCurve input)
          ++ events (verifyProof_try hashed gamma pf auxData)).
  split.
  - rewrite (events_hashToCurve_Ok _ _ Hh). simpl.
    eapply verifyProof_try_throw_calls; eassumption.
  - rewrite verify_run by assumption. rewrite Hpf.
    rewrite (framed_hashToCurve input (t ++ [Call OpDeserialize])), Hh.
    rewrite verifyProof_run.
    rewrite (framed_verifyProof_try hashed gamma pf auxData), He.
    unfold caught_line, failed_line.
    repeat rewrite <- app_assoc. reflexivity.
Qed.

(** *** The hashed input, honest transcripts, the auxiliary data *)

Lemma outcome_hashToCurve message :
  outcome (hashToCurve message) =
  match elligator2HashToCurve message with
  | Throw e => Throw e
  | Ok point =>
      match curvePointToNoble point with
      | Throw e => Throw e
      | Ok noble => pointToBytes noble
      end
  end.
Proof.
  unfold outcome, hashToCurve. rewrite bind_call.
  destruct (elligator2HashToCurve message) as [point|e]; [|reflexivity].
  rewrite bind_call.
  destruct (curvePointToNoble point) as [noble|e]; reflexivity.
Qed.

(** X5.  [hashToCurve] encodes the hashed point and [verifyProof] decodes
    it again.  When the library decodes that encoding back to the same
    point, the point [I] of the output equation of an accepting call is
    the Elligator2 hash of the input, converted by [curvePointToNoble]. *)
Theorem verify_true_uses_hashed_input
        input gamma proof auxData t t' point noble :
  elligator2HashToCurve input = Ok point ->
  curvePointToNoble point = Ok noble ->
  (forall bytes, pointToBytes noble = Ok bytes ->
                 bytesToPoint bytes = Ok noble) ->
  verify input gamma proof auxData t = (Ok true, t') ->
  exists d,
    transcript_of input gamma proof auxData d /\
    pointToBytes noble = Ok (t_I d) /\
    t_IPoint d = noble /\
    theta0_holds (t_O_kPoint d) (t_OPoint d) noble (t_c d)
                 (bytesToBigIntLittleEndian (s (t_proof d))).
Proof.
  intros Hp Hn Hround H.
  apply verify_true_inv in H as (_ & d & Hd & H0 & _).
  exists d. split; [assumption|].
  destruct Hd as (_ & Hh & (HI & _) & _).
  rewrite outcome_hashToCurve, Hp, Hn in Hh.
  pose proof (Hround _ Hh) as HI'. rewrite HI in HI'.
  injection HI' as E.
  split; [exact Hh|]. split; [exact E|].
  unfold theta0_of, t_s in H0. rewrite E in H0. exact H0.
Qed.

(** X6.  The two equations are those of the protocol.  Over a library
    with the algebra of [curve_laws], a transcript whose points and
    responses are built as a prover builds them from a secret key, a
    blinding and two nonces, [Gamma = sk*I], [Y_bar = sk*G + b*B],
    [R = k*G + k_b*B], [O_k = k*I], [s = k + c*sk] and [s_b = k_b + c*b]
    modulo the order, is accepted. *)
Theorem honest_transcript_is_accepted
        padd smul input gamma proof auxData t d G B secretKey b k k_b :
  curve_laws padd smul ->
  List.length proof = 160%nat ->
  transcript_of input gamma proof auxData d ->
  fromAffine GENERATOR = Ok G ->
  fromAffine BLINDING_BASE = Ok B ->
  t_OPoint d = smul (t_IPoint d) secretKey ->
  t_Y_barPoint d = padd (smul G secretKey) (smul B b) ->
  t_RPoint d = padd (smul G k) (smul B k_b) ->
  t_O_kPoint d = smul (t_IPoint d) k ->
  t_s d mod CURVE_ORDER = (k + t_c d * secretKey) mod CURVE_ORDER ->
  t_s_b d mod CURVE_ORDER = (k_b + t_c d * b) mod CURVE_ORDER ->
  exists t', verify input gamma proof auxData t = (Ok true, t').
Proof.
  intros laws L Hd HG HB HO HY HR HOk Hs Hsb.
  assert (Es : forall P, smul P (t_s d) = smul P (k + t_c d * secretKey))
    by (intros P; rewrite <- (smul_order _ _ laws P (t_s d)), Hs;
        apply (smul_order _ _ laws)).
  assert (Esb : forall P, smul P (t_s_b d) = smul P (k_b + t_c d * b))
    by (intros P; rewrite <- (smul_order _ _ laws P (t_s_b d)), Hsb;
        apply (smul_order _ _ laws)).
  apply (verify_true_intro input gamma proof auxData t d L Hd).
  - unfold theta0_of, theta0_holds.
    exists (smul (t_OPoint d) (t_c d)),
           (padd (t_O_kPoint d) (smul (t_OPoint d) (t_c d))),
           (smul (t_IPoint d) (t_s d)).
    repeat split;
      try apply (add_total _ _ laws);
      try apply (scalarMultiply_total _ _ laws).
    rewrite HOk, HO, Es.
    rewrite (smul_smul _ _ laws), <- (smul_plus _ _ laws).
    rewrite (Z.mul_comm secretKey). apply (equals_refl _ _ laws).
  - unfold theta1_of, theta1_holds.
    exists (smul (t_Y_barPoint d) (t_c d)),
           (padd (t_RPoint d) (smul (t_Y_barPoint d) (t_c d))),
           G, B, (smul G (t_s d)), (smul B (t_s_b d)),
           (padd (smul G (t_s d)) (smul B (t_s_b d))).
    repeat split; try assumption;
      try apply (add_total _ _ laws);
      try apply (scalarMultiply_total _ _ laws).
    rewrite HR, HY, !Es, !Esb.
    rewrite (smul_padd _ _ laws), !(smul_smul _ _ laws).
    rewrite !(smul_plus _ _ laws).
    rewrite (Z.mul_comm secretKey), (Z.mul_comm b).
    set (a1 := smul G k). set (a2 := smul B k_b).
    set (a3 := smul G (t_c d * secretKey)). set (a4 := smul B (t_c d * b)).
    replace (padd (padd a1 a2) (padd a3 a4))
      with (padd (padd a1 a3) (padd a2 a4)).
    + apply (equals_refl _ _ laws).
    + rewrite <- !(padd_assoc _ _ laws). f_equal.
      rewrite !(padd_assoc _ _ laws). f_equal.
      apply (padd_comm _ _ laws).
Qed.

(** X7.  The auxiliary data reach the verdict through the challenge
    alone: two auxiliary byte strings on which [generateChallenge] agrees
    give the same run. *)
Theorem verify_auxData_through_challenge input gamma proof ad1 ad2 t :
  (forall Y I O R O_k,
     generateChallenge Y I O R O_k ad1 = generateChallenge Y I O R O_k ad2) ->
  verify input gamma proof (Some ad1) t = verify input gamma proof (Some ad2) t.
Proof.
  intros H. unfold verify.
  destruct (negb (Nat.eqb (List.length proof) 160)); [reflexivity|].
  apply bind_ext. intros pf t0.
  apply bind_ext. intros hashed t1.
  replace (verifyProof hashed gamma pf (Some ad2))
    with (verifyProof hashed gamma pf (Some ad1)); [reflexivity|].
  unfold verifyProof, verifyProof_try. simpl auxData_or_empty.
  rewrite (H (Y_bar pf) hashed gamma (R pf) (O_k pf)). reflexivity.
Qed.

(** *** Scalars that are not reduced, and the size error *)

(** The output equation sees a scalar through [scalarMultiply] alone. *)
Lemma theta0_holds_scalar O_kPoint OPoint IPoint c s1 s2 :
  (forall P, scalarMultiply P s1 = scalarMultiply P s2) ->
  theta0_holds O_kPoint OPoint IPoint c s1 ->
  theta0_holds O_kPoint OPoint IPoint c s2.
Proof.
  intros E (cO & l & r & H1 & H2 & H3 & H4).
  exists cO, l, r. rewrite <- E. auto.
Qed.

Lemma theta1_holds_scalar RPoint Y_barPoint c s1 s2 sb1 sb2 :
  (forall P, scalarMultiply P s1 = scalarMultiply P s2) ->
  (forall P, scalarMultiply P sb1 = scalarMultiply P sb2) ->
  theta1_holds RPoint Y_barPoint c s1 sb1 ->
  theta1_holds RPoint Y_barPoint c s2 sb2.
Proof.
  intros E Eb (cY & l & G & B & sG & sbB & r & K1 & K2 & K3 & K4 & K5 &
               K6 & K7 & K8).
  exists cY, l, G, B, sG, sbB, r. rewrite <- E, <- Eb. auto 10.
Qed.

Lemma verifyProof_true_scalars I O pf1 pf2 auxData t :
  Y_bar pf1 = Y_bar pf2 -> R pf1 = R pf2 -> O_k pf1 = O_k pf2 ->
  (forall P, scalarMultiply P (bytesToBigIntLittleEndian (s pf1))
             = scalarMultiply P (bytesToBigIntLittleEndian (s pf2))) ->
  (forall P, scalarMultiply P (bytesToBigIntLittleEndian (s_b pf1))
             = scalarMultiply P (bytesToBigIntLittleEndian (s_b pf2))) ->
  (exists t', verifyProof I O pf1 auxData t = (Ok true, t')) ->
  exists t', verifyProof I O pf2 auxData t = (Ok true, t').
Proof.
  intros EY ER EO Es Esb H.
  apply verifyProof_true_iff in H as [t' H].
  apply verifyProof_try_true_inv in H
    as (IP & OP & YP & RP & OkP & c & (HI & HO & HY & HR & HOk) & Hc &
        H0 & H1).
  apply verifyProof_true_iff.
  rewrite EY, ER, EO in *.
  eapply verifyProof_try_true_intro; try eassumption.
  - eapply theta0_holds_scalar; eassumption.
  - eapply theta1_holds_scalar; eassumption.
Qed.

(** X8.  The verifier does not ask for canonical scalars.  When the
    library's [scalarMultiply] counts scalars modulo the curve order, two
    proofs with the same three points whose responses agree modulo the
    order get the same outcome: a proof stays valid when the order is
    added to [s] or [s_b]. *)
Theorem verify_scalar_malleable input gamma proof1 proof2 auxData t pf1 pf2 :
  (forall P k, scalarMultiply P (k mod CURVE_ORDER) = scalarMultiply P k) ->
  List.length proof1 = 160%nat -> List.length proof2 = 160%nat ->
  deserialize proof1 = Ok pf1 -> deserialize proof2 = Ok pf2 ->
  Y_bar pf1 = Y_bar pf2 -> R pf1 = R pf2 -> O_k pf1 = O_k pf2 ->
  bytesToBigIntLittleEndian (s pf1) mod CURVE_ORDER
  = bytesToBigIntLittleEndian (s pf2) mod CURVE_ORDER ->
  bytesToBigIntLittleEndian (s_b pf1) mod CURVE_ORDER
  = bytesToBigIntLittleEndian (s_b pf2) mod CURVE_ORDER ->
  fst (verify input gamma proof1 auxData t)
  = fst (verify input gamma proof2 auxData t).
Proof.
  intros Hmod L1 L2 Hpf1 Hpf2 EY ER EO Es Esb.
  assert (Ms : forall P, scalarMultiply P (bytesToBigIntLittleEndian (s pf1))
                         = scalarMultiply P (bytesToBigIntLittleEndian (s pf2)))
    by (intros P; rewrite <- Hmod, Es; apply Hmod).
  assert (Msb :
            forall P, scalarMultiply P (bytesToBigIntLittleEndian (s_b pf1))
                      = scalarMultiply P (bytesToBigIntLittleEndian (s_b pf2)))
    by (intros P; rewrite <- Hmod, Esb; apply Hmod).
  rewrite !verify_run by assumption. rewrite Hpf1, Hpf2.
  destruct (hashToCurve input (t ++ [Call OpDeserialize]))
    as [[hashed|e] t1]; [|reflexivity].
  destruct (verifyProof_returns hashed gamma pf1 auxData t1)
    as (b1 & u1 & H1).
  destruct (verifyProof_returns hashed gamma pf2 auxData t1)
    as (b2 & u2 & H2).
  assert (Hb : b1 = b2).
  { destruct b1, b2; try reflexivity.
    - destruct (verifyProof_true_scalars hashed gamma pf1 pf2 auxData t1
                  EY ER EO Ms Msb (ex_intro _ u1 H1)) as [u H].
      rewrite H2 in H. discriminate H.
    - destruct (verifyProof_true_scalars hashed gamma pf2 pf1 auxData t1
                  (eq_sym EY) (eq_sym ER) (eq_sym EO)
                  (fun P => eq_sym (Ms P)) (fun P => eq_sym (Msb P))
                  (ex_intro _ u2 H2)) as [u H].
      rewrite H1 in H. discriminate H. }
  rewrite H1, H2, Hb. destruct b2; reflexivity.
Qed.

(** X9.  The size error names the length it was given: two proofs of
    wrong lengths make [verify] throw the same error only if they have the
    same length. *)
Theorem verify_size_error_names_length
        input1 gamma1 proof1 aux1 t1 input2 gamma2 proof2 aux2 t2 :
  List.length proof1 <> 160%nat ->
  List.length proof2 <> 160%nat ->
  fst (verify input1 gamma1 proof1 aux1 t1)
  = fst (verify input2 gamma2 proof2 aux2 t2) ->
  List.length proof1 = List.length proof2.
Proof.
  intros L1 L2 H.
  rewrite !verify_wrong_length in H by assumption. simpl in H.
  apply invalid_proof_size_inj. congruence.
Qed.

(** *** Two accepted responses to one commitment *)

(** Over a lawful library whose [equals] is equality, the output equation
    is an identity between points. *)
Lemma theta0_holds_eq padd smul O_kPoint OPoint IPoint c sScalar :
  curve_laws padd smul ->
  (forall P Q, equals P Q = true -> P = Q) ->
  theta0_holds O_kPoint OPoint IPoint c sScalar ->
  padd O_kPoint (smul OPoint c) = smul IPoint sScalar.
Proof.
  intros laws Heq (cO & l & r & H1 & H2 & H3 & H4).
  rewrite (scalarMultiply_total _ _ laws) in H1, H3.
  injection H1 as <-. injection H3 as <-.
  rewrite (add_total _ _ laws) in H2. injection H2 as <-.
  now apply Heq.
Qed.

(** X10.  The output equation binds the response to the output.  Over a
    lawful library in which [equals] is equality and multiples can be
    cancelled from a sum, two accepted proofs for the same input and gamma
    that share the commitment [O_k] satisfy [(c1 - c2)*Gamma = (s1 - s2)*I]
    for their challenges and responses. *)
Theorem two_accepted_responses_bind_output
        padd smul input gamma proof1 proof2 aux1 aux2 t1 t1' t2 t2' pf1 pf2 :
  curve_laws padd smul ->
  (forall P Q, equals P Q = true -> P = Q) ->
  (forall P a Q b S,
     padd (smul P a) S = padd (smul Q b) S -> smul P a = smul Q b) ->
  deserialize proof1 = Ok pf1 ->
  deserialize proof2 = Ok pf2 ->
  O_k pf1 = O_k pf2 ->
  verify input gamma proof1 aux1 t1 = (Ok true, t1') ->
  verify input gamma proof2 aux2 t2 = (Ok true, t2') ->
  exists d1 d2,
    transcript_of input gamma proof1 aux1 d1 /\
    transcript_of input gamma proof2 aux2 d2 /\
    t_IPoint d1 = t_IPoint d2 /\
    t_OPoint d1 = t_OPoint d2 /\
    smul (t_OPoint d1) (t_c d1 - t_c d2)
    = smul (t_IPoint d1) (t_s d1 - t_s d2).
Proof.
  intros laws Heq Hcancel Hpf1 Hpf2 HOk H1 H2.
  apply verify_true_inv in H1 as (_ & d1 & Hd1 & E1 & _).
  apply verify_true_inv in H2 as (_ & d2 & Hd2 & E2 & _).
  exists d1, d2. split; [assumption|]. split; [assumption|].
  destruct Hd1 as (Hp1 & Hh1 & (HI1 & HO1 & _ & _ & HK1) & _).
  destruct Hd2 as (Hp2 & Hh2 & (HI2 & HO2 & _ & _ & HK2) & _).
  rewrite Hpf1 in Hp1. injection Hp1 as Hp1.
  rewrite Hpf2 in Hp2. injection Hp2 as Hp2.
  assert (EI : t_IPoint d1 = t_IPoint d2) by congruence.
  assert (EO : t_OPoint d1 = t_OPoint d2) by congruence.
  assert (EK : t_O_kPoint d1 = t_O_kPoint d2) by congruence.
  split; [assumption|]. split; [assumption|].
  apply (theta0_holds_eq padd smul) in E1; try assumption.
  apply (theta0_holds_eq padd smul) in E2; try assumption.
  rewrite <- EI, <- EO, <- EK in E2.
  set (A := t_O_kPoint d1) in *. set (OP := t_OPoint d1) in *.
  set (IP := t_IPoint d1) in *.
  set (c1 := t_c d1) in *. set (c2 := t_c d2) in *.
  set (s1 := t_s d1) in *. set (s2 := t_s d2) in *.
  apply (Hcancel OP (c1 - c2) IP (s1 - s2) (padd A (smul OP c2))).
  rewrite E2 at 2. rewrite <- (smul_plus _ _ laws).
  replace (s1 - s2 + s2) with s1 by lia. rewrite <- E1.
  rewrite (padd_comm _ _ laws A (smul OP c2)).
  rewrite (padd_assoc _ _ laws), <- (smul_plus _ _ laws).
  replace (c1 - c2 + c2) with c1 by lia.
  apply (padd_comm _ _ laws).
Qed.

End Properties.

(** ** The theorems at concrete inputs *)

Lemma verify_accepts_only_if_theta0_witness :
  exists d,
    @transcript_of Toy.curve Toy.elligator_toy Toy.prover
      Toy.input_test Toy.gamma_test Toy.proof_test None d /\
    @theta0_holds Toy.curve (t_O_kPoint d) (t_OPoint d) (t_IPoint d) (t_c d)
      (bytesToBigIntLittleEndian (s (t_proof d))).
Proof.
  apply (@verify_accepts_only_if_theta0 Toy.curve Toy.elligator_toy
           Toy.prover Toy.input_test Toy.gamma_test Toy.proof_test None []
           (snd (Toy.verify_toy Toy.input_test Toy.gamma_test
                                Toy.proof_test None []))).
  vm_compute. reflexivity.
Defined.

Lemma verify_accepts_only_if_theta1_witness :
  exists d,
    @transcript_of Toy.curve Toy.elligator_toy Toy.prover
      Toy.input_test Toy.gamma_test Toy.proof_test None d /\
    @theta1_holds Toy.curve (t_RPoint d) (t_Y_barPoint d) (t_c d)
      (bytesToBigIntLittleEndian (s (t_proof d)))
      (bytesToBigIntLittleEndian (s_b (t_proof d))) /\
    @BLINDING_BASE Toy.curve <> @GENERATOR Toy.curve.
Proof.
  apply (@verify_accepts_only_if_theta1 Toy.curve Toy.elligator_toy
           Toy.prover Toy.input_test Toy.gamma_test Toy.proof_test None []
           (snd (Toy.verify_toy Toy.input_test Toy.gamma_test
                                Toy.proof_test None []))).
  vm_compute. reflexivity.
Defined.

Lemma verify_length_check_witness :
  Toy.verify_toy Toy.input_test Toy.gamma_test [x00] None []
  = (Throw (invalid_proof_size 1), []) /\
  exists r evs,
    Toy.verify_toy Toy.input_test Toy.gamma_test Toy.proof_test None []
    = (r, [] ++ Call OpDeserialize :: evs).
Proof.
  split.
  - apply (proj1 (@verify_length_check Toy.curve Toy.elligator_toy
                    Toy.prover Toy.input_test Toy.gamma_test [x00] None [])).
    simpl. lia.
  - apply (proj2 (@verify_length_check Toy.curve Toy.elligator_toy
                    Toy.prover Toy.input_test Toy.gamma_test Toy.proof_test
                    None [])).
    reflexivity.
Defined.

(** C5, the claim as stated fails: a gamma that does not decode makes the
    call return [false]; no error reaches the caller. *)
Lemma undecodable_gamma_returns_false :
  @bytesToPoint Toy.curve Toy.gamma_undecodable
  = Throw (Error "point is not in the group") /\
  List.length Toy.proof_test = 160%nat /\
  fst (Toy.verify_toy Toy.input_test Toy.gamma_undecodable Toy.proof_test
                      None [])
  = Ok false.
Proof. vm_compute. repeat split. Qed.

Lemma verify_undecodable_point_returns_false_witness :
  exists t',
    Toy.verify_toy Toy.input_test Toy.gamma_undecodable Toy.proof_test None []
    = (Ok false, t').
Proof.
  apply (@verify_undecodable_point_returns_false Toy.curve Toy.elligator_toy
           Toy.prover Toy.input_test Toy.gamma_undecodable Toy.proof_test
           None []
           {| Y_bar := slice Toy.proof_test 0 32;
              R := slice Toy.proof_test 32 64;
              O_k := slice Toy.proof_test 64 96;
              s := slice Toy.proof_test 96 128;
              s_b := slice Toy.proof_test 128 160 |}
           (encode_le 32 69)).
  - reflexivity.
  - reflexivity.
  - vm_compute. reflexivity.
  - exists (Error "point is not in the group"). right. left.
    vm_compute. reflexivity.
Defined.

(** Whether a scalar at or above the order is accepted is decided by the
    curve library.  The proof [Toy.proof_large_s] carries [s = 153], above
    the order 101: linked against the multiplication that takes any
    integer the verifier accepts it, linked against the one that throws
    outside [1, 101) it returns [false]. *)
Lemma large_scalar_depends_on_library :
  (exists pf,
     deserialize_layout Toy.proof_large_s = Ok pf /\
     bytesToBigIntLittleEndian (s pf) = 153) /\
  @CURVE_ORDER Toy.curve = 101 /\
  fst (Toy.verify_toy Toy.input_test Toy.gamma_test Toy.proof_large_s
                      None [])
  = Ok true /\
  fst (Toy.verify_strict Toy.input_test Toy.gamma_test Toy.proof_large_s
                         None [])
  = Ok false.
Proof.
  split; [eexists; split; [reflexivity|vm_compute; reflexivity]|].
  vm_compute. repeat split.
Qed.

Lemma verify_rejects_large_scalar_if_scalarMultiply_does_witness :
  fst (Toy.verify_strict Toy.input_test Toy.gamma_test Toy.proof_large_s
                         None [])
  = Ok false \/
  exists e,
    fst (Toy.verify_strict Toy.input_test Toy.gamma_test Toy.proof_large_s
                           None [])
    = Throw e.
Proof.
  apply (@verify_rejects_large_scalar_if_scalarMultiply_does
           Toy.strict_curve Toy.elligator_strict Toy.prover
           Toy.input_test Toy.gamma_test Toy.proof_large_s None []
           {| Y_bar := slice Toy.proof_large_s 0 32;
              R := slice Toy.proof_large_s 32 64;
              O_k := slice Toy.proof_large_s 64 96;
              s := slice Toy.proof_large_s 96 128;
              s_b := slice Toy.proof_large_s 128 160 |}).
  - intros P k Hk. simpl in *. unfold Toy.strict_scalarMultiply.
    destruct (0 <? k); simpl; eauto.
    destruct (k <? Toy.q) eqn:E; eauto.
    apply Z.ltb_lt in E. unfold Toy.q in *. lia.
  - reflexivity.
  - left. vm_compute. discriminate.
Defined.

(** The verifier has no check for the neutral element; what happens to
    it is decided by the decoder of the curve library.  In Z/101 the
    neutral element is 0, and [Toy.toy_bytesToPoint] decodes it: a proof
    whose blinded key commitment [Y_bar] is neutral is then accepted, even
    by the instance that throws on scalars outside [1, 101); and with
    gamma, [Y_bar], [R] and [O_k] all neutral and both responses zero,
    every point decodes and the call returns [true]. *)
Lemma identity_commitments_are_accepted :
  (forall P, Toy.toy_add 0 P = Ok (P mod Toy.q)) /\
  (exists pf,
     deserialize_layout Toy.proof_blinded_away = Ok pf /\
     @bytesToPoint Toy.strict_curve (Y_bar pf) = Ok 0) /\
  fst (Toy.verify_strict Toy.input_test Toy.gamma_blinded_away
                         Toy.proof_blinded_away None [])
  = Ok true /\
  @bytesToPoint Toy.curve Toy.gamma_identity = Ok 0 /\
  (exists pf,
     deserialize_layout Toy.proof_identity = Ok pf /\
     @bytesToPoint Toy.curve (Y_bar pf) = Ok 0 /\
     @bytesToPoint Toy.curve (R pf) = Ok 0 /\
     @bytesToPoint Toy.curve (O_k pf) = Ok 0) /\
  fst (Toy.verify_toy Toy.input_test Toy.gamma_identity Toy.proof_identity
                      None [])
  = Ok true.
Proof.
  split; [intros P; reflexivity|].
  split; [eexists; split; [reflexivity|vm_compute; reflexivity]|].
  split; [vm_compute; reflexivity|].
  split; [reflexivity|]. split.
  - eexists. split; [reflexivity|]. vm_compute. repeat split.
  - vm_compute. reflexivity.
Qed.


(** ** The further theorems at concrete inputs *)

Lemma bytesToBigIntLittleEndian_app (a b : Uint8Array) :
  bytesToBigIntLittleEndian (a ++ b)
  = bytesToBigIntLittleEndian a
    + 256 ^ Z.of_nat (List.length a) * bytesToBigIntLittleEndian b.
Proof.
  induction a as [|c a IH].
  - cbn [app bytesToBigIntLittleEndian List.length].
    change (Z.of_nat 0) with 0. rewrite Z.pow_0_r. lia.
  - cbn [app bytesToBigIntLittleEndian List.length]. rewrite IH.
    rewrite Nat2Z.inj_succ, Z.pow_succ_r by lia. ring.
Qed.

Lemma toy_challenge_trailing_zero Y I O R O_k :
  Toy.toy_challenge Y I O R O_k [] = Toy.toy_challenge Y I O R O_k [x00].
Proof.
  unfold Toy.toy_challenge. do 2 f_equal.
  rewrite !app_assoc, app_nil_r.
  rewrite (bytesToBigIntLittleEndian_app _ [x00]). simpl. lia.
Qed.

Lemma Toy_curve_laws : @curve_laws Toy.curve ToyRun.padd ToyRun.smul.
Proof.
  assert (Hq : Toy.q <> 0) by (unfold Toy.q; lia).
  split; unfold ToyRun.padd, ToyRun.smul; simpl; intros.
  - reflexivity.
  - reflexivity.
  - apply Z.eqb_refl.
  - now rewrite Z.add_comm.
  - rewrite Z.add_mod_idemp_r, Z.add_mod_idemp_l by assumption.
    now rewrite Z.add_assoc.
  - rewrite Z.mul_add_distr_r. now apply Z.add_mod.
  - rewrite Z.mul_mod_idemp_r by assumption. f_equal. ring.
  - rewrite Z.mul_mod_idemp_r by assumption.
    rewrite Z.mul_add_distr_l. now apply Z.add_mod.
  - now rewrite Z.mul_mod_idemp_l.
Qed.

Lemma verifyProof_try_fixed_calls_witness :
  exists IPoint OPoint Y_barPoint RPoint O_kPoint c theta0 theta1,
    (@bytesToPoint Toy.curve ToyRun.hashed_test = Ok IPoint /\
     @bytesToPoint Toy.curve ToyRun.gamma_other = Ok OPoint /\
     @bytesToPoint Toy.curve (Y_bar ToyRun.pf_test) = Ok Y_barPoint /\
     @bytesToPoint Toy.curve (R ToyRun.pf_test) = Ok RPoint /\
     @bytesToPoint Toy.curve (O_k ToyRun.pf_test) = Ok O_kPoint) /\
    @generateChallenge Toy.prover (Y_bar ToyRun.pf_test) ToyRun.hashed_test
      ToyRun.gamma_other (R ToyRun.pf_test) (O_k ToyRun.pf_test)
      (auxData_or_empty None)
    = Ok c /\
    @theta0_verdict Toy.curve O_kPoint OPoint IPoint c
      (bytesToBigIntLittleEndian (s ToyRun.pf_test)) theta0 /\
    @theta1_verdict Toy.curve RPoint Y_barPoint c
      (bytesToBigIntLittleEndian (s ToyRun.pf_test))
      (bytesToBigIntLittleEndian (s_b ToyRun.pf_test)) theta1 /\
    false = theta0 && theta1 /\
    snd (verifyProof_try (curve := Toy.curve) (prover := Toy.prover)
           ToyRun.hashed_test ToyRun.gamma_other ToyRun.pf_test None [])
    = [] ++ repeat (Call OpBytesToPoint) 5 ++ scalar_calls
         ++ equation_calls ++ [details_line theta0 theta1 c].
Proof.
  apply (verifyProof_try_fixed_calls (curve := Toy.curve)
           (prover := Toy.prover) ToyRun.hashed_test ToyRun.gamma_other
           ToyRun.pf_test None []).
  vm_compute. reflexivity.
Defined.

Lemma verify_true_trace_witness :
  exists d,
    @transcript_of Toy.curve Toy.elligator_toy Toy.prover
      Toy.input_test Toy.gamma_test Toy.proof_test None d /\
    snd (Toy.verify_toy Toy.input_test Toy.gamma_test Toy.proof_test None [])
    = [] ++ decoding_prefix ++ scalar_calls ++ equation_calls
         ++ [details_line true true (t_c d); verified_line].
Proof.
  apply (@verify_true_trace Toy.curve Toy.elligator_toy Toy.prover
           Toy.input_test Toy.gamma_test Toy.proof_test None []).
  vm_compute. reflexivity.
Defined.

Lemma verify_logs_caught_error_witness :
  exists calls,
    forallb is_call calls = true /\
    Toy.verify_toy Toy.input_test Toy.gamma_undecodable Toy.proof_test None []
    = (Ok false,
       [] ++ calls ++ [caught_line (Error "point is not in the group");
                       failed_line]).
Proof.
  apply (@verify_logs_caught_error Toy.curve Toy.elligator_toy Toy.prover
           Toy.input_test Toy.gamma_undecodable Toy.proof_test None []
           ToyRun.pf_test ToyRun.hashed_test).
  - reflexivity.
  - reflexivity.
  - vm_compute. reflexivity.
  - vm_compute. reflexivity.
Defined.

Lemma verify_true_uses_hashed_input_witness :
  exists d,
    @transcript_of Toy.curve Toy.elligator_toy Toy.prover
      Toy.input_test Toy.gamma_test Toy.proof_test None d /\
    @pointToBytes Toy.curve 69 = Ok (t_I d) /\
    t_IPoint d = 69 /\
    @theta0_holds Toy.curve (t_O_kPoint d) (t_OPoint d) 69 (t_c d)
      (bytesToBigIntLittleEndian (s (t_proof d))).
Proof.
  apply (@verify_true_uses_hashed_input Toy.curve Toy.elligator_toy
           Toy.prover Toy.input_test Toy.gamma_test Toy.proof_test None []
           (snd (Toy.verify_toy Toy.input_test Toy.gamma_test
                                Toy.proof_test None []))
           69 69).
  - vm_compute. reflexivity.
  - reflexivity.
  - intros bytes H. simpl in H. injection H as <-. vm_compute. reflexivity.
  - vm_compute. reflexivity.
Defined.

Lemma honest_transcript_is_accepted_witness :
  exists t',
    Toy.verify_toy Toy.input_test Toy.gamma_test Toy.proof_test None []
    = (Ok true, t').
Proof.
  apply (@honest_transcript_is_accepted Toy.curve Toy.elligator_toy
           Toy.prover ToyRun.padd ToyRun.smul
           Toy.input_test Toy.gamma_test Toy.proof_test None []
           ToyRun.transcript_test 1 7 5 3 2 4).
  - exact Toy_curve_laws.
  - reflexivity.
  - vm_compute. repeat split.
  - reflexivity.
  - reflexivity.
  - vm_compute. reflexivity.
  - vm_compute. reflexivity.
  - vm_compute. reflexivity.
  - vm_compute. reflexivity.
  - vm_compute. reflexivity.
  - vm_compute. reflexivity.
Defined.

Lemma verify_auxData_through_challenge_witness :
  Toy.verify_toy Toy.input_test Toy.gamma_test Toy.proof_test (Some []) []
  = Toy.verify_toy Toy.input_test Toy.gamma_test Toy.proof_test
                   (Some [x00]) [].
Proof.
  apply (@verify_auxData_through_challenge Toy.curve Toy.elligator_toy
           Toy.prover Toy.input_test Toy.gamma_test Toy.proof_test
           [] [x00] []).
  intros Y I O R O_k. apply toy_challenge_trailing_zero.
Defined.

Lemma verify_scalar_malleable_witness :
  fst (Toy.verify_toy Toy.input_test Toy.gamma_test Toy.proof_test None [])
  = fst (Toy.verify_toy Toy.input_test Toy.gamma_test Toy.proof_large_s
                        None []).
Proof.
  apply (@verify_scalar_malleable Toy.curve Toy.elligator_toy Toy.prover
           Toy.input_test Toy.gamma_test Toy.proof_test Toy.proof_large_s
           None [] ToyRun.pf_test ToyRun.pf_large_s).
  - intros P k. simpl. unfold Toy.toy_scalarMultiply. f_equal.
    apply (smul_order _ _ Toy_curve_laws P k).
  - reflexivity.
  - reflexivity.
  - reflexivity.
  - reflexivity.
  - vm_compute. reflexivity.
  - vm_compute. reflexivity.
  - vm_compute. reflexivity.
  - vm_compute. reflexivity.
  - vm_compute. reflexivity.
Defined.

Lemma verify_size_error_names_length_witness :
  List.length [x00] = List.length [x01].
Proof.
  apply (@verify_size_error_names_length Toy.curve Toy.elligator_toy
           Toy.prover Toy.input_test Toy.gamma_test [x00] None []
           Toy.input_test Toy.gamma_identity [x01] (Some []) []).
  - simpl. lia.
  - simpl. lia.
  - vm_compute. reflexivity.
Defined.

Lemma toy_smul_range P a : 0 <= ToyRun.smul P a < Toy.q.
Proof. unfold ToyRun.smul, Toy.q. apply Z.mod_pos_bound. lia. Qed.

Lemma toy_cancel P a Q b S :
  ToyRun.padd (ToyRun.smul P a) S = ToyRun.padd (ToyRun.smul Q b) S ->
  ToyRun.smul P a = ToyRun.smul Q b.
Proof.
  pose proof (toy_smul_range P a) as Hx.
  pose proof (toy_smul_range Q b) as Hy.
  unfold ToyRun.padd. intros H.
  set (u := ToyRun.smul P a) in *. set (v := ToyRun.smul Q b) in *.
  unfold Toy.q in *.
  rewrite (Z.mod_eq (u + S) 101), (Z.mod_eq (v + S) 101) in H by lia.
  nia.
Qed.

Lemma two_accepted_responses_bind_output_witness :
  exists d1 d2,
    @transcript_of Toy.curve Toy.elligator_toy Toy.prover
      Toy.input_test Toy.gamma_test Toy.proof_test None d1 /\
    @transcript_of Toy.curve Toy.elligator_toy Toy.prover
      Toy.input_test Toy.gamma_test ToyRun.proof_other
      (Some ToyRun.aux_other) d2 /\
    t_IPoint d1 = t_IPoint d2 /\
    t_OPoint d1 = t_OPoint d2 /\
    ToyRun.smul (t_OPoint d1) (t_c d1 - t_c d2)
    = ToyRun.smul (t_IPoint d1) (t_s d1 - t_s d2).
Proof.
  apply (@two_accepted_responses_bind_output Toy.curve Toy.elligator_toy
           Toy.prover ToyRun.padd ToyRun.smul
           Toy.input_test Toy.gamma_test Toy.proof_test ToyRun.proof_other
           None (Some ToyRun.aux_other)
           [] (snd (Toy.verify_toy Toy.input_test Toy.gamma_test
                                   Toy.proof_test None []))
           [] (snd (Toy.verify_toy Toy.input_test Toy.gamma_test
                                   ToyRun.proof_other
                                   (Some ToyRun.aux_other) []))
           ToyRun.pf_test ToyRun.pf_other).
  - exact Toy_curve_laws.
  - intros P Q H. simpl in H. now apply Z.eqb_eq.
  - exact toy_cancel.
  - reflexivity.
  - reflexivity.
  - vm_compute. reflexivity.
  - vm_compute. reflexivity.
  - vm_compute. reflexivity.
Defined.
